(** * stringreader: the tag-driven decode engine of [Marshal.unmarshal]

    A shallow embedding of the Go package [stringreader]
    (unmarshal.go, context.go, source.go and the error types), as far as
    [Marshal.unmarshal], [Marshal.getUnmarshaler], [context.Reset] and the
    [SourceSmartSplit] lookups go.

    Reflection is modelled over a fragment of Go's types: [int], [int8],
    [string], [bool], slices, pointers and struct types whose fields are
    exported (the package documentation: "For each public field").  Values
    live in a heap of cells; a pointer names a place, i.e. a cell and a
    path of field indices inside it, so that [fValue.Addr()] of a struct
    field and pointers into the interior of another struct are
    representable (and may alias). *)

From Stdlib Require Import String Ascii ZArith List Bool Lia.
From stdpp Require Import base list gmap strings.

Import ListNotations.
Open Scope string_scope.
Set Warnings "-register-all -abstract-large-number".

(* ------------------------------------------------------------------ *)
(** ** Go types and values (the [reflect] fragment) *)

(** A [reflect.StructTag]: the key:"value" pairs of a field's tag, in
    order. *)
Definition StructTag := list (string * string).

(** [reflect.StructTag.Get]: the value of the first pair with the given
    key, or the empty string.  An empty key never matches (a Go tag key
    has at least one character). *)
Fixpoint tag_lookup (tg : StructTag) (key : string) : string :=
  match tg with
  | [] => ""
  | (k, v) :: rest => if String.eqb k key then v else tag_lookup rest key
  end.

Definition StructTag_Get (tg : StructTag) (key : string) : string :=
  if String.eqb key "" then "" else tag_lookup tg key.

Inductive gotype : Type :=
| TInt                                        (* int, 64 bits *)
| TInt8                                       (* int8 *)
| TString
| TBool
| TSlice (elem : gotype)
| TPtr (elem : gotype)
| TStruct (fields : list (string * gotype * StructTag)).

(** A place: a heap cell and a path of field indices inside it. *)
Definition place := (nat * list nat)%type.

Inductive value : Type :=
| VInt (z : Z)
| VString (s : string)
| VBool (b : bool)
| VSlice (elems : list value)                 (* a nil slice is [VSlice []] *)
| VPtr (target : option place)                (* [None] is the nil pointer *)
| VStruct (fields : list value).

(** An [interface{}] value: [None] is the nil interface, otherwise its
    dynamic type and value.  A [reflect.Value] is modelled the same way,
    [None] being the invalid (zero) [reflect.Value]. *)
Definition ival := option (gotype * value).

(** [reflect.Zero] / [reflect.New(t).Elem()]. *)
Fixpoint zero (t : gotype) : value :=
  match t with
  | TInt | TInt8 => VInt 0
  | TString => VString ""
  | TBool => VBool false
  | TSlice _ => VSlice []
  | TPtr _ => VPtr None
  | TStruct fs => VStruct (map (fun '(_, ft, _) => zero ft) fs)
  end.

(** Identical types; with [ignore_tags] set, struct tags are not
    compared (the rule of Go's conversions between struct types). *)
Fixpoint type_eqb (ignore_tags : bool) (t1 t2 : gotype) : bool :=
  match t1, t2 with
  | TInt, TInt | TInt8, TInt8 | TString, TString | TBool, TBool => true
  | TSlice a, TSlice b => type_eqb ignore_tags a b
  | TPtr a, TPtr b => type_eqb ignore_tags a b
  | TStruct fs1, TStruct fs2 =>
      (fix fields_eqb (l1 l2 : list (string * gotype * StructTag)) : bool :=
         match l1, l2 with
         | [], [] => true
         | (n1, a, g1) :: r1, (n2, b, g2) :: r2 =>
             String.eqb n1 n2 && type_eqb ignore_tags a b
             && (ignore_tags || bool_decide (g1 = g2)) && fields_eqb r1 r2
         | _, _ => false
         end) fs1 fs2
  | _, _ => false
  end.

(** [reflect.Type.AssignableTo]: the fragment has no named and no
    interface types, so assignability is identity of types. *)
Definition AssignableTo (t1 t2 : gotype) : bool := type_eqb false t1 t2.

Definition is_integer (t : gotype) : bool :=
  match t with TInt | TInt8 => true | _ => false end.

(** [reflect.Value.CanConvert] on the fragment: identical underlying
    types ignoring struct tags (also under a pointer), integer to
    integer, and integer to string. *)
Definition ConvertibleTo (t1 t2 : gotype) : bool :=
  type_eqb true t1 t2
  || (is_integer t1 && is_integer t2)
  || (is_integer t1 && match t2 with TString => true | _ => false end).

Local Open Scope Z_scope.

(** Two's complement wrap-around to [w] bits. *)
Definition wrap (w : Z) (z : Z) : Z :=
  let m := Z.shiftl 1 w in
  let r := Z.modulo z m in
  if Z.ltb r (Z.shiftl 1 (w - 1)) then r else r - m.

Definition byte_string (bs : list Z) : string :=
  String.string_of_list_ascii (map (fun b => ascii_of_nat (Z.to_nat b)) bs).

(** [string(rune(x))]: the UTF-8 encoding of a code point, U+FFFD for
    values that are no code point. *)
Definition utf8_of_rune (c : Z) : string :=
  if (c <? 0) || (0x10FFFF <? c) || ((0xD800 <=? c) && (c <=? 0xDFFF))
  then byte_string [0xEF; 0xBF; 0xBD]
  else if c <? 0x80 then byte_string [c]
  else if c <? 0x800 then
    byte_string [Z.lor 0xC0 (Z.shiftr c 6); Z.lor 0x80 (Z.land c 0x3F)]
  else if c <? 0x10000 then
    byte_string [Z.lor 0xE0 (Z.shiftr c 12);
                 Z.lor 0x80 (Z.land (Z.shiftr c 6) 0x3F);
                 Z.lor 0x80 (Z.land c 0x3F)]
  else
    byte_string [Z.lor 0xF0 (Z.shiftr c 18);
                 Z.lor 0x80 (Z.land (Z.shiftr c 12) 0x3F);
                 Z.lor 0x80 (Z.land (Z.shiftr c 6) 0x3F);
                 Z.lor 0x80 (Z.land c 0x3F)].

(** [reflect.Value.Convert] on the fragment; [None] is a panic (never
    reached on convertible pairs). *)
Definition Convert (t : gotype) (v : value) (t2 : gotype) : option value :=
  if type_eqb true t t2 then Some v
  else match v, t2 with
       | VInt z, TInt => Some (VInt (wrap 64 z))
       | VInt z, TInt8 => Some (VInt (wrap 8 z))
       | VInt z, TString => Some (VString (utf8_of_rune z))
       | _, _ => None
       end.

Local Close Scope Z_scope.

(** The heap: cell [l] holds a value; [vget]/[vset] follow a path of
    field indices ([reflect.Value.Field]).  [vset] leaves a value alone
    where the path does not exist, which a well-typed program never
    does. *)
Fixpoint vget (v : value) (path : list nat) : option value :=
  match path with
  | [] => Some v
  | i :: r =>
      match v with
      | VStruct vs => match vs !! i with Some vi => vget vi r | None => None end
      | _ => None
      end
  end.

Fixpoint vset (v : value) (path : list nat) (x : value) : value :=
  match path with
  | [] => x
  | i :: r =>
      match v with
      | VStruct vs =>
          match vs !! i with
          | Some vi => VStruct (<[i := vset vi r x]> vs)
          | None => v
          end
      | _ => v
      end
  end.

Definition heap_get (h : list value) (p : place) : option value :=
  match h !! p.1 with Some v => vget v p.2 | None => None end.

Definition heap_set (h : list value) (p : place) (x : value) : list value :=
  match h !! p.1 with Some v => <[p.1 := vset v p.2 x]> h | None => h end.

(** [dValue.Field(i)] of the struct stored at [p]. *)
Definition field_place (p : place) (i : nat) : place := (p.1, (p.2 ++ [i])%list).

(* ------------------------------------------------------------------ *)
(** ** context.go *)

Inductive Kind : Type :=
| KindUndef
| KindSingleUnmarshaler
| KindMultiUnmarshaler
| KindSingleMarshaler
| KindMultiMarshaler.

(** [Data]: the nil maps of the zero value are the empty lists. *)
Record Data : Type := mkData {
  Globals : list (string * ival);
  Locals : list (string * list (string * ival))
}.

Definition Data_zero : Data := mkData [] [].

(** [type context struct]. *)
Record context : Type := mkContext {
  field : string;
  tag : StructTag;
  datum : string;
  typ : string;
  kind : Kind;
  data : Data
}.

(** [new(context)]. *)
Definition context_new : context := mkContext "" [] "" "" KindUndef Data_zero.

Definition set_field (c : context) (x : string) : context :=
  mkContext x c.(tag) c.(datum) c.(typ) c.(kind) c.(data).
Definition set_tag (c : context) (x : StructTag) : context :=
  mkContext c.(field) x c.(datum) c.(typ) c.(kind) c.(data).
Definition set_datum (c : context) (x : string) : context :=
  mkContext c.(field) c.(tag) x c.(typ) c.(kind) c.(data).
Definition set_typ (c : context) (x : string) : context :=
  mkContext c.(field) c.(tag) c.(datum) x c.(kind) c.(data).
Definition set_kind (c : context) (x : Kind) : context :=
  mkContext c.(field) c.(tag) c.(datum) c.(typ) x c.(data).
Definition set_data (c : context) (x : Data) : context :=
  mkContext c.(field) c.(tag) c.(datum) c.(typ) c.(kind) x.

(** [func (p *context) Reset()]:
    [p.field, p.datum, p.typ = "", "", ""; p.kind = KindUndef; p.data = Data{}]. *)
Definition Reset (p : context) : context :=
  mkContext "" p.(tag) "" "" KindUndef Data_zero.

#[global] Instance Kind_eq_dec : EqDecision Kind.
Proof. solve_decision. Defined.

(** [func (k Kind) Unmarshaler() bool] and the other predicates on
    [Kind]. *)
Definition Kind_Unmarshaler (k : Kind) : bool :=
  bool_decide (k = KindSingleUnmarshaler) || bool_decide (k = KindMultiUnmarshaler).
Definition Kind_Marshaler (k : Kind) : bool :=
  bool_decide (k = KindSingleMarshaler) || bool_decide (k = KindMultiMarshaler).
Definition Kind_Single (k : Kind) : bool :=
  bool_decide (k = KindSingleUnmarshaler) || bool_decide (k = KindSingleMarshaler).
Definition Kind_Multi (k : Kind) : bool :=
  bool_decide (k = KindMultiUnmarshaler) || bool_decide (k = KindMultiMarshaler).

(** A Go map with string keys as the list of its entries: [m[k]] and
    [m[k] = v]. *)
Fixpoint assoc_lookup {A} (l : list (string * A)) (k : string) : option A :=
  match l with
  | [] => None
  | (k', v) :: r => if String.eqb k' k then Some v else assoc_lookup r k
  end.

Fixpoint assoc_insert {A} (k : string) (v : A) (l : list (string * A)) : list (string * A) :=
  match l with
  | [] => [(k, v)]
  | (k', v') :: r => if String.eqb k' k then (k, v) :: r else (k', v') :: assoc_insert k v r
  end.

(** [func (p *Data) SetGlobal(key, value)]: a nil map is made first,
    which is the empty list here. *)
Definition Data_SetGlobal (p : Data) (key : string) (value : ival) : Data :=
  mkData (assoc_insert key value p.(Globals)) p.(Locals).

(** [func (p *Data) SetLocal(field, key, value)]: the inner map of
    [field] is made when it is missing.  An inner map of [Locals] here
    stands for a made map (as [SetLocal] leaves it); a [Locals] entry
    holding a nil map, on which the Go write panics, is not represented. *)
Definition Data_SetLocal (p : Data) (field key : string) (value : ival) : Data :=
  let inner := match assoc_lookup p.(Locals) field with Some i => i | None => [] end in
  mkData p.(Globals) (assoc_insert field (assoc_insert key value inner) p.(Locals)).

(** [func (p context) GetGlobal(key)] and [func (p context) Get(key)]: a
    missing entry reads as nil. *)
Definition context_GetGlobal (p : context) (key : string) : ival :=
  match assoc_lookup p.(data).(Globals) key with Some v => v | None => None end.

Definition context_Get (p : context) (key : string) : ival :=
  let inner := match assoc_lookup p.(data).(Locals) p.(field) with Some i => i | None => [] end in
  match assoc_lookup inner key with Some v => v | None => None end.

(* ------------------------------------------------------------------ *)
(** ** Errors *)

Inductive goerror : Type :=
| ErrorString (msg : string)                (* errors.New, fmt.Errorf *)
| ErrDestIsNil
| ErrNotPointerToStruct
| ErrUnknownTyp
| ErrBothTyp
| ErrInlineNotStruct (field : string) (tag : StructTag) (typ : string)
| ErrUnknownType (field : string) (tag : StructTag) (datum : string)
    (typ : string) (cause : goerror)
| ErrFailedToProcessField (field : string) (tag : StructTag) (datum : string)
    (typ : string) (kind : Kind) (cause : goerror)
| ErrWrongDestType (field : string) (tag : StructTag) (datum : string)
    (typ : string) (kind : Kind) (Assignment : bool)
    (ReturnedType : gotype) (DestType : gotype) (cause : option goerror).

(** The result of a call: [nil], a returned error, or a panic that
    leaves the call (the deferred calls having run). *)
Inductive outcome : Type :=
| Ok
| Err (e : goerror)
| Panic (msg : string).

(** The [Kind()] method of the [MarshalError] implementations
    (errors.go); [None] for the errors that are no [MarshalError]. *)
Definition err_Kind (e : goerror) : option Kind :=
  match e with
  | ErrDestIsNil | ErrNotPointerToStruct => Some KindUndef
  | ErrInlineNotStruct _ _ _ => Some KindUndef
  | ErrUnknownType _ _ _ _ _ => Some KindUndef
  | ErrFailedToProcessField _ _ _ _ k _ => Some k
  | ErrWrongDestType _ _ _ _ k _ _ _ _ => Some k
  | ErrorString _ | ErrUnknownTyp | ErrBothTyp => None
  end.

(** [errors.Unwrap]: the cause of the error types with an [Unwrap]
    method, nil for the others. *)
Definition err_Unwrap (e : goerror) : option goerror :=
  match e with
  | ErrUnknownType _ _ _ _ c => Some c
  | ErrFailedToProcessField _ _ _ _ _ c => Some c
  | ErrWrongDestType _ _ _ _ _ _ _ _ c => c
  | _ => None
  end.

(* ------------------------------------------------------------------ *)
(** ** source.go *)

(** The one-method interfaces [SourceSingle] and [SourceMulti]. *)
Definition SourceSingle := string -> string * bool.
Definition SourceMulti := string -> list string * bool.

(** [Source]: both methods. *)
Record Source : Type := mkSource {
  Lookup : string -> string * bool;
  LookupAll : string -> list string * bool
}.

(** [SourceSingleMap] and [SourceMultiMap]: Go maps read with [v, ok := m[k]]. *)
Definition SourceSingleMap (s : gmap string string) : SourceSingle :=
  fun src => match s !! src with Some v => (v, true) | None => ("", false) end.

Definition SourceMultiMap (s : gmap string (list string)) : SourceMulti :=
  fun key => match s !! key with Some v => (v, true) | None => ([], false) end.

(** [SourceSplit]: a nil component is an empty source. *)
Definition SourceSplit (ss : option SourceSingle) (sm : option SourceMulti) : Source :=
  mkSource
    (fun value => match ss with None => ("", false) | Some f => f value end)
    (fun value => match sm with None => ([], false) | Some f => f value end).

(** [SourceSmartSplit]: a nil component is emulated by the other one. *)
Record SourceSmartSplit : Type := mkSourceSmartSplit {
  smart_single : option SourceSingle;
  smart_multi : option SourceMulti
}.

Definition SourceSmartSplit_Lookup (s : SourceSmartSplit) (value : string) : string * bool :=
  match s.(smart_single), s.(smart_multi) with
  | Some f, _ => f value
  | None, Some g =>
      let '(result, ok) := g value in
      if negb ok || Nat.eqb (length result) 0 then ("", false)
      else match result with r0 :: _ => (r0, true) | [] => ("", false) end
  | None, None => ("", false)
  end.

Definition SourceSmartSplit_LookupAll (s : SourceSmartSplit) (value : string) : list string * bool :=
  match s.(smart_multi), s.(smart_single) with
  | Some g, _ => g value
  | None, Some f =>
      let '(result, ok) := f value in
      if negb ok then ([], true) else ([result], true)
  | None, None => ([], false)
  end.

Definition SourceSmartSplit_Source (s : SourceSmartSplit) : Source :=
  mkSource (SourceSmartSplit_Lookup s) (SourceSmartSplit_LookupAll s).

(* ------------------------------------------------------------------ *)
(** ** unmarshal.go *)

(** [SingleUnmarshaler] and [MultiUnmarshaler]: the returned
    [(interface{}, error)], [None] being the nil error.  The context is
    the one the engine passes ([ctx]) at the time of the call. *)
Definition SingleUnmarshaler := string -> bool -> context -> ival * option goerror.
Definition MultiUnmarshaler := list string -> bool -> context -> ival * option goerror.

(** [type Marshal struct]; a map entry [None] is a nil function. *)
Record Marshal : Type := mkMarshal {
  NameTag : string;
  StrictNameTag : bool;
  TypeTag : string;
  DefaultType : string;
  InlineType : string;
  SingleUnmarshalers : gmap string (option SingleUnmarshaler);
  MultiUnmarshalers : gmap string (option MultiUnmarshaler);
  StrictTyping : bool
}.

(** [func (m Marshal) getUnmarshaler(name string) (single, multi, err)]. *)
Definition getUnmarshaler (m : Marshal) (name : string)
  : option SingleUnmarshaler * option MultiUnmarshaler * option goerror :=
  let '(single, singleOK) :=
    match m.(SingleUnmarshalers) !! name with Some f => (f, true) | None => (None, false) end in
  let '(multi, multiOK) :=
    match m.(MultiUnmarshalers) !! name with Some f => (f, true) | None => (None, false) end in
  let singleOK := singleOK && bool_decide (is_Some single) in
  let multiOK := multiOK && bool_decide (is_Some multi) in
  if singleOK && multiOK then (None, None, Some ErrBothTyp)
  else if negb (singleOK || multiOK) then (None, None, Some ErrUnknownTyp)
  else (single, multi, None).

(** [RegisterSingleUnmarshaler] and [RegisterMultiUnmarshaler]
    ([None] registers a nil function). *)
Definition RegisterSingleUnmarshaler (m : Marshal) (name : string)
    (u : option SingleUnmarshaler) : Marshal :=
  mkMarshal m.(NameTag) m.(StrictNameTag) m.(TypeTag) m.(DefaultType) m.(InlineType)
    (<[name := u]> m.(SingleUnmarshalers)) m.(MultiUnmarshalers) m.(StrictTyping).

Definition RegisterMultiUnmarshaler (m : Marshal) (name : string)
    (u : option MultiUnmarshaler) : Marshal :=
  mkMarshal m.(NameTag) m.(StrictNameTag) m.(TypeTag) m.(DefaultType) m.(InlineType)
    m.(SingleUnmarshalers) (<[name := u]> m.(MultiUnmarshalers)) m.(StrictTyping).

(** Calls on the [Source] (its methods may have effects of their own). *)
Inductive event : Type :=
| LookupCall (key : string)
| LookupAllCall (key : string).

(** The state the engine works on: the heap, the [contextPool] and the
    calls made on the source. *)
Record world : Type := mkWorld {
  heap : list value;
  pool : list context;
  trace : list event
}.

Definition set_heap (w : world) (h : list value) : world := mkWorld h w.(pool) w.(trace).
Definition set_pool (w : world) (ps : list context) : world := mkWorld w.(heap) ps w.(trace).
Definition log_event (w : world) (e : event) : world :=
  mkWorld w.(heap) w.(pool) (w.(trace) ++ [e]).

(** [contextPool.Get()]: a pooled context if there is one, else
    [new(context)]; [contextPool.Put(ctx)].  A [sync.Pool] may hand out
    any pooled object or drop them; the last one put is the one taken. *)
Definition pool_Get (w : world) : context * world :=
  match w.(pool) with
  | c :: rest => (c, set_pool w rest)
  | [] => (context_new, w)
  end.

Definition pool_Put (c : context) (w : world) : world := set_pool w (c :: w.(pool)).

(** [reflect.New(t)]: a fresh cell holding the zero value. *)
Definition reflect_New (t : gotype) (w : world) : place * world :=
  ((length w.(heap), []), set_heap w (w.(heap) ++ [zero t])).

(** [fValue.Set(x)]. *)
Definition set_place (p : place) (x : value) (w : world) : world :=
  set_heap w (heap_set w.(heap) p x).

(** The outcome of reconciling a returned value with the field type. *)
Inductive reconciled : Type :=
| Assign (v : value)
| WrongType (Assignment : bool) (ReturnedType : gotype) (cause : option goerror)
| RPanic (msg : string).

Definition zero_Value_panic (meth : string) : string :=
  "reflect: call of reflect.Value." ++ meth ++ " on zero Value".

(** Lines 569-638 of [unmarshal]: [rValue := reflect.ValueOf(pValue)],
    conversion unless [m.StrictTyping], the assignability check if
    [m.StrictTyping], and the value handed to [fValue.Set]. *)
Definition reconcile (StrictTyping : bool) (pValue : ival) (fType : gotype) : reconciled :=
  let rValue := pValue in
  let conv :=
    if negb StrictTyping then
      match rValue with
      | Some (t, v) =>
          if negb (ConvertibleTo t fType) then inr (WrongType false t None)
          else match Convert t v fType with
               | Some v' => inl (Some (fType, v'))
               (* reflectConvert recovered a panic: its [v] is the zero
                  Value, and [rValue.Type()] panics *)
               | None => inr (RPanic (zero_Value_panic "Type"))
               end
      | None => inl (Some (fType, zero fType))
      end
    else inl rValue in
  match conv with
  | inr r => r
  | inl rValue =>
      if StrictTyping then
        match rValue with
        | None => RPanic (zero_Value_panic "Type")
        | Some (t, v) => if negb (AssignableTo t fType) then WrongType true t None else Assign v
        end
      else
        match rValue with
        | Some (_, v) => Assign v
        | None => RPanic (zero_Value_panic "Set")
        end
  end.

(** Lines 524-638 of [unmarshal]: registry lookup, dispatch to the
    single or multi unmarshaler, and the assignment; [ctx] already holds
    the field, its tag, its type name and its source key.  The result is
    the outcome ([Ok] for a completed assignment), the context and the
    world. *)
Definition dispatch (m : Marshal) (source : Source) (fType : gotype) (fValue : place)
    (ctx : context) (w : world) : outcome * context * world :=
  match getUnmarshaler m ctx.(typ) with
  | (_, _, Some err) =>
      (Err (ErrUnknownType ctx.(field) ctx.(tag) ctx.(datum) ctx.(typ) err), ctx, w)
  | (single, multi, None) =>
      let '(pValue, pErr, ctx, w) :=
        match single, multi with
        | Some f, _ =>
            let '(rValue, rOK) := source.(Lookup) ctx.(datum) in
            let w := log_event w (LookupCall ctx.(datum)) in
            let ctx := set_kind ctx KindSingleUnmarshaler in
            let '(pv, pe) := f rValue rOK ctx in (pv, pe, ctx, w)
        | None, Some g =>
            let '(rValue, rOK) := source.(LookupAll) ctx.(datum) in
            let w := log_event w (LookupAllCall ctx.(datum)) in
            let ctx := set_kind ctx KindMultiUnmarshaler in
            let '(pv, pe) := g rValue rOK ctx in (pv, pe, ctx, w)
        | None, None => (None, None, ctx, w)
        end in
      match pErr with
      | Some e =>
          (Err (ErrFailedToProcessField ctx.(field) ctx.(tag) ctx.(datum) ctx.(typ)
                  ctx.(kind) e), ctx, w)
      | None =>
          match reconcile m.(StrictTyping) pValue fType with
          | Assign v => (Ok, ctx, set_place fValue v w)
          | WrongType a t c =>
              (Err (ErrWrongDestType ctx.(field) ctx.(tag) ctx.(datum) ctx.(typ)
                      ctx.(kind) a t fType c), ctx, w)
          | RPanic msg => (Panic msg, ctx, w)
          end
      end
  end.

(** Lines 514-522 of [unmarshal]: the source key of a field that is not
    inlined ([continue] gives [Ok]), then [dispatch]. *)
Definition unmarshal_leaf (m : Marshal) (source : Source) (fname : string)
    (ftag : StructTag) (fType : gotype) (fValue : place) (ctx : context) (w : world)
  : outcome * context * world :=
  let ctx := set_datum ctx (StructTag_Get ftag m.(NameTag)) in
  if String.eqb ctx.(datum) "" && m.(StrictNameTag) then (Ok, ctx, w) else
  let ctx := if String.eqb ctx.(datum) "" then set_datum ctx fname else ctx in
  dispatch m source fType fValue ctx w.

(** Lines 491-497: the pointer field of an inlined [*struct]; when it is
    nil a new zero struct is allocated and stored in the field.  [None]
    only for a place that holds no pointer, which a well-typed heap
    excludes. *)
Definition inline_target (fType : gotype) (fValue : place) (w : world)
  : option (place * world) :=
  match heap_get w.(heap) fValue with
  | Some (VPtr None) =>
      let '(q, w) := reflect_New fType w in
      Some (q, set_place fValue (VPtr (Some q)) w)
  | Some (VPtr (Some q)) => Some (q, w)
  | _ => None
  end.

(** The decoder name of a field (lines 460-466): [None] for [continue]. *)
Definition resolve_typ (m : Marshal) (ftag : StructTag) : option string :=
  let t := StructTag_Get ftag m.(TypeTag) in
  if String.eqb t "" then
    if String.eqb m.(DefaultType) "" then None else Some m.(DefaultType)
  else Some t.

Definition is_inline (m : Marshal) (t : string) : bool :=
  negb (String.eqb m.(InlineType) "") && String.eqb t m.(InlineType).

(** The loop of [unmarshal] over the fields (lines 449-639) of the
    struct stored at [dValue]; [rec] is the recursive call of an inlined
    field.  The result is the outcome ([Ok] when the loop ran to its
    end), the context and the world. *)
Definition fields_loop (m : Marshal) (source : Source)
    (rec : gotype -> place -> world -> outcome * world) (dValue : place)
  : list (string * gotype * StructTag) -> nat -> context -> world ->
    outcome * context * world :=
  fix loop fs i ctx w {struct fs} :=
    match fs with
    | [] => (Ok, ctx, w)
    | (fname, fType, ftag) :: rest =>
        let fValue := field_place dValue i in
        let ctx := set_tag (set_field ctx fname) ftag in
        let ctx := set_typ ctx (StructTag_Get ftag m.(TypeTag)) in
        match resolve_typ m ftag with
        | None => loop rest (S i) ctx w
        | Some typ0 =>
            let ctx := set_typ ctx typ0 in
            if is_inline m ctx.(typ) then
              match fType with
              | TStruct _ =>
                  match rec fType fValue w with
                  | (Ok, w) => loop rest (S i) ctx w
                  | (r, w) => (r, ctx, w)
                  end
              | TPtr elem =>
                  match elem with
                  | TStruct _ =>
                      match inline_target elem fValue w with
                      | Some (q, w) =>
                          match rec elem q w with
                          | (Ok, w) => loop rest (S i) ctx w
                          | (r, w) => (r, ctx, w)
                          end
                      | None => (Panic (zero_Value_panic "IsNil"), ctx, w)
                      end
                  | _ => (Err (ErrInlineNotStruct ctx.(field) ctx.(tag) ctx.(typ)), ctx, w)
                  end
              | _ => (Err (ErrInlineNotStruct ctx.(field) ctx.(tag) ctx.(typ)), ctx, w)
              end
            else
              match unmarshal_leaf m source fname ftag fType fValue ctx w with
              | (Ok, ctx, w) => loop rest (S i) ctx w
              | r => r
              end
        end
    end.

(** [func (m Marshal) unmarshal(value, source, data)] from line 440 on,
    for the struct of type [t] stored at [dValue]: a context is taken
    from the pool, the fields are processed in order, and the deferred
    [ctx.Reset()] and [contextPool.Put(ctx)] run on every exit.  The
    recursive call of an inlined field enters here directly, its
    argument being a non-nil pointer to a struct. *)
Fixpoint unmarshal (m : Marshal) (source : Source) (data : Data) (t : gotype)
    (dValue : place) (w : world) {struct t} : outcome * world :=
  match t with
  | TStruct fs =>
      let '(ctx, w) := pool_Get w in
      let ctx := set_data ctx data in
      let '(res, ctx, w) := fields_loop m source (unmarshal m source data) dValue fs 0 ctx w in
      (res, pool_Put (Reset ctx) w)
  | _ => (Err ErrNotPointerToStruct, w)
  end.

(** [func (m Marshal) Unmarshal(value interface{}, source, data)]: the
    checks of lines 423-438 on [value].  A typed nil pointer to a struct
    passes them; [dValue.Field(i)] then panics on its first field. *)
Definition Unmarshal (m : Marshal) (value : ival) (source : Source) (data : Data)
    (w : world) : outcome * world :=
  match value with
  | None => (Err ErrDestIsNil, w)
  | Some (TPtr (TStruct fs), VPtr (Some q)) => unmarshal m source data (TStruct fs) q w
  | Some (TPtr (TStruct fs), VPtr None) =>
      let '(ctx, w) := pool_Get w in
      let ctx := set_data ctx data in
      (match fs with [] => Ok | _ => Panic (zero_Value_panic "Field") end,
       pool_Put (Reset ctx) w)
  | Some _ => (Err ErrNotPointerToStruct, w)
  end.

(** A name is registered in one of the collections when it maps to a
    non-nil function there. *)
Definition registered {A} (mp : gmap string (option A)) (name : string) : option A :=
  match mp !! name with Some (Some f) => Some f | _ => None end.

(** A struct field reaches the registry lookup (line 525) when it has a
    decoder name that is not the inline name and a source key. *)
Definition datum_of (m : Marshal) (fname : string) (ftag : StructTag) : option string :=
  let d := StructTag_Get ftag m.(NameTag) in
  if String.eqb d "" then (if m.(StrictNameTag) then None else Some fname) else Some d.

(** The loop of the outermost call over a prefix of the fields. *)
Definition run_prefix (m : Marshal) (source : Source) (data : Data) (p : place)
    (pre : list (string * gotype * StructTag)) (w : world) : outcome * context * world :=
  let '(ctx0, w0) := pool_Get w in
  fields_loop m source (unmarshal m source data) p pre 0 (set_data ctx0 data) w0.

(* ------------------------------------------------------------------ *)
(** ** Concrete configurations *)

Definition dconst : SingleUnmarshaler := fun _ _ _ => (Some (TInt, VInt 42), None).
Definition dfail : SingleUnmarshaler := fun _ _ _ => (None, Some (ErrorString "fail")).
Definition dnil : SingleUnmarshaler := fun _ _ _ => (None, None).
Definition dmulti_nil : MultiUnmarshaler := fun _ _ _ => (None, None).

(** [NameTag: "name", StrictNameTag: true, TypeTag: "type",
    InlineType: "inline"], no default type. *)
Definition mk_example (strict : bool) : Marshal :=
  mkMarshal "name" true "type" "" "inline"
    (<["const" := Some dconst]> (<["fail" := Some dfail]> (<["nil" := Some dnil]>
      (<["both" := Some dconst]> (<["half" := Some dconst]> (<["gone" := None]> ∅))))))
    (<["both" := Some dmulti_nil]> (<["half" := None]> (<["gone" := None]> ∅)))
    strict.

Definition empty_source : Source := SourceSplit None None.

(** [type Inner struct { Z int `name:"z" type:"const"` }]. *)
Definition Inner : gotype := TStruct [("Z", TInt, [("name", "z"); ("type", "const")])].

(** [type Outer struct { P *Inner `type:"inline"`; X int `name:"x" type:"fail"`; Y Inner }]. *)
Definition Outer : gotype :=
  TStruct [("P", TPtr Inner, [("type", "inline")]);
           ("X", TInt, [("name", "x"); ("type", "fail")]);
           ("Y", Inner, [])].

(** An [Outer] whose [P] points to its own field [Y]. *)
Definition aliased_world : world :=
  mkWorld [VStruct [VPtr (Some (0, [2])); VInt 0; VStruct [VInt 7]]] [] [].

(** [type Leaf struct { A int `name:"a" type:"const"` }]. *)
Definition Leaf : gotype := TStruct [("A", TInt, [("name", "a"); ("type", "const")])].

(** [type Nils struct { A int `name:"a" type:"nil"` }]. *)
Definition Nils : gotype := TStruct [("A", TInt, [("name", "a"); ("type", "nil")])].

(** [type Holder struct { P *Leaf `type:"inline"` }], [P] nil. *)
Definition Holder : gotype := TStruct [("P", TPtr Leaf, [("type", "inline")])].

(** [type Both struct { B int `type:"both"` }]: no name tag. *)
Definition BothT : gotype := TStruct [("B", TInt, [("type", "both")])].

(** [type BothNamed struct { B int `name:"b" type:"both"` }]. *)
Definition BothNamed : gotype := TStruct [("B", TInt, [("name", "b"); ("type", "both")])].

Definition one_cell (v : value) : world := mkWorld [v] [] [].

(** [NameTag: "name", StrictNameTag: true, TypeTag: "type",
    DefaultType: "inline", InlineType: "inline"]: an untagged field is
    inlined. *)
Definition mk_default_inline : Marshal :=
  mkMarshal "name" true "type" "inline" "inline"
    (<["const" := Some dconst]> ∅) ∅ false.

(** [type Wrap struct { L Leaf }]. *)
Definition Wrap : gotype := TStruct [("L", Leaf, [])].

(** A source in which every key is absent. *)
Definition source_empty (source : Source) : Prop :=
  (forall k, source.(Lookup) k = ("", false)) /\
  (forall k, source.(LookupAll) k = ([], false)).

(** The decoder registered under [n] returns no value and no error when
    the source lacks the key. *)
Definition substitutes_default (m : Marshal) (n : string) : Prop :=
  (exists f, getUnmarshaler m n = (Some f, None, None) /\
     forall c, f "" false c = (None, None)) \/
  (exists g, getUnmarshaler m n = (None, Some g, None) /\
     forall c, g [] false c = (None, None)).

(** Whether the decoder registered under [n] is a single unmarshaler. *)
Definition single_of (m : Marshal) (n : string) : bool :=
  match getUnmarshaler m n with (Some _, _, _) => true | _ => false end.

(** The size of a type, for induction over the nesting of inlined
    structs. *)
Fixpoint gsize (t : gotype) : nat :=
  match t with
  | TSlice e | TPtr e => S (gsize e)
  | TStruct fs => S (list_sum (map (fun '(_, ft, _) => gsize ft) fs))
  | _ => 1
  end.

(** A context as [Reset] leaves it (the tag aside). *)
Definition clean_context (c : context) : Prop :=
  c.(field) = "" /\ c.(datum) = "" /\ c.(typ) = "" /\ c.(kind) = KindUndef /\
  c.(data) = Data_zero.

(** The source call a field of a struct without inlined fields leads to:
    none when it is skipped, one [Lookup] or [LookupAll] of its key when
    its decoder name is registered in exactly one collection. *)
Definition field_events (m : Marshal) (f : string * gotype * StructTag) : list event :=
  let '(fname, _, ftag) := f in
  match resolve_typ m ftag, datum_of m fname ftag with
  | Some n, Some d =>
      match getUnmarshaler m n with
      | (Some _, _, None) => [LookupCall d]
      | (None, Some _, None) => [LookupAllCall d]
      | _ => []
      end
  | _, _ => []
  end.

(** [dispatch] with [ctx] calls a decoder that returns [pv] and no
    error; [k] is its kind and [w1] the world after the source call. *)
Definition decoder_call (m : Marshal) (source : Source) (ctx : context) (w : world)
    (pv : ival) (k : Kind) (w1 : world) : Prop :=
  (exists f, getUnmarshaler m ctx.(typ) = (Some f, None, None) /\
     f (source.(Lookup) ctx.(datum)).1 (source.(Lookup) ctx.(datum)).2
       (set_kind ctx KindSingleUnmarshaler) = (pv, None) /\
     k = KindSingleUnmarshaler /\ w1 = log_event w (LookupCall ctx.(datum))) \/
  (exists g, getUnmarshaler m ctx.(typ) = (None, Some g, None) /\
     g (source.(LookupAll) ctx.(datum)).1 (source.(LookupAll) ctx.(datum)).2
       (set_kind ctx KindMultiUnmarshaler) = (pv, None) /\
     k = KindMultiUnmarshaler /\ w1 = log_event w (LookupAllCall ctx.(datum))).

(* ================================================================== *)
(** * Properties *)

(** Reduce the accessors of a context built with the setters. *)
Ltac simpl_ctx :=
  cbn [field tag datum typ kind data set_field set_tag set_datum set_typ set_kind set_data] in *.

(** [getUnmarshaler] depends on the maps only through [registered]. *)
Lemma getUnmarshaler_registered (m : Marshal) (name : string) :
  getUnmarshaler m name =
  match registered m.(SingleUnmarshalers) name, registered m.(MultiUnmarshalers) name with
  | Some _, Some _ => (None, None, Some ErrBothTyp)
  | None, None => (None, None, Some ErrUnknownTyp)
  | Some f, None => (Some f, None, None)
  | None, Some g => (None, Some g, None)
  end.
Proof.
  unfold getUnmarshaler, registered.
  destruct (SingleUnmarshalers m !! name) as [[f|]|];
  destruct (MultiUnmarshalers m !! name) as [[g|]|]; reflexivity.
Qed.

(** C10: a nil function in a collection counts as unregistered: nil in
    one collection and non-nil in the other resolves to the non-nil
    function, nil or absent in both is [ErrUnknownTyp]. *)
Theorem getUnmarshaler_ignores_nil (m : Marshal) (name : string) :
  (forall f, m.(SingleUnmarshalers) !! name = Some (Some f) ->
     m.(MultiUnmarshalers) !! name = Some None ->
     getUnmarshaler m name = (Some f, None, None)) /\
  (forall g, m.(MultiUnmarshalers) !! name = Some (Some g) ->
     m.(SingleUnmarshalers) !! name = Some None ->
     getUnmarshaler m name = (None, Some g, None)) /\
  ((m.(SingleUnmarshalers) !! name = None \/ m.(SingleUnmarshalers) !! name = Some None) ->
   (m.(MultiUnmarshalers) !! name = None \/ m.(MultiUnmarshalers) !! name = Some None) ->
   getUnmarshaler m name = (None, None, Some ErrUnknownTyp)).
Proof.
  rewrite getUnmarshaler_registered. unfold registered.
  split; [|split].
  - intros f -> ->. reflexivity.
  - intros g -> ->. reflexivity.
  - intros [-> | ->] [-> | ->]; reflexivity.
Qed.

Lemma getUnmarshaler_ignores_nil_witness :
  (mk_example false).(SingleUnmarshalers) !! "half" = Some (Some dconst) /\
  (mk_example false).(MultiUnmarshalers) !! "half" = Some None /\
  getUnmarshaler (mk_example false) "half" = (Some dconst, None, None).
Proof.
  split; [reflexivity|split; [reflexivity|]].
  apply (proj1 (getUnmarshaler_ignores_nil (mk_example false) "half")); reflexivity.
Defined.

(** C9 (as stated, refuted): with only a [SourceSingle], [LookupAll] of a
    key the single source lacks does not report the key absent: it
    returns an empty list with [ok = true]. *)
Lemma smart_split_lookupall_absent_counterexample :
  let s := mkSourceSmartSplit (Some (SourceSingleMap (<["key" := "value"]> ∅))) None in
  SourceSingleMap (<["key" := "value"]> ∅) "fake" = ("", false) /\
  SourceSmartSplit_LookupAll s "fake" = ([], true).
Proof. split; reflexivity. Qed.

(** C9 (amended): with only a multi component, [Lookup] returns the
    first element of [LookupAll]'s list with [ok = true], and reports
    absent when that list is absent or empty; with only a single
    component, [LookupAll] returns the one-element list of the single
    value with [ok = true] when it exists, and an empty (nil) list, also
    with [ok = true], when it does not. *)
Theorem smart_split_synthesized_lookups :
  (forall (g : SourceMulti) (k : string),
     SourceSmartSplit_Lookup (mkSourceSmartSplit None (Some g)) k =
     match g k with
     | (r0 :: _, true) => (r0, true)
     | _ => ("", false)
     end) /\
  (forall (f : SourceSingle) (k : string),
     SourceSmartSplit_LookupAll (mkSourceSmartSplit (Some f) None) k =
     match f k with
     | (v, true) => ([v], true)
     | (_, false) => ([], true)
     end).
Proof.
  split.
  - intros g k. unfold SourceSmartSplit_Lookup; simpl.
    destruct (g k) as [[|r0 rs] [|]]; reflexivity.
  - intros f k. unfold SourceSmartSplit_LookupAll; simpl.
    destruct (f k) as [v [|]]; reflexivity.
Qed.

(** The context a call of [unmarshal] puts back into the pool is the one
    it used, passed through [Reset]. *)
Lemma unmarshal_puts_reset_context (m : Marshal) (source : Source) (data : Data)
    (fs : list (string * gotype * StructTag)) (p : place) (w : world) :
  exists c rest, (unmarshal m source data (TStruct fs) p w).2.(pool) = Reset c :: rest.
Proof.
  simpl. destruct (pool_Get w) as [ctx w1].
  destruct (fields_loop m source (unmarshal m source data) p fs 0 (set_data ctx data) w1)
    as [[res ctx2] w2].
  exists ctx2, w2.(pool). reflexivity.
Qed.

(** [Reset] clears the field, the source key, the type name, the kind
    and the data, and keeps the tag. *)
Lemma Reset_fields (c : context) :
  (Reset c).(field) = "" /\ (Reset c).(datum) = "" /\ (Reset c).(typ) = "" /\
  (Reset c).(kind) = KindUndef /\ (Reset c).(data) = Data_zero /\
  (Reset c).(tag) = c.(tag).
Proof. repeat split. Qed.

(** C8 (the code's behaviour at the failing input): after decoding a
    [Leaf] the pooled context still holds the tag of the last field. *)
Theorem pooled_context_keeps_tag :
  (unmarshal (mk_example false) empty_source Data_zero Leaf (0, [])
     (one_cell (VStruct [VInt 0]))).2.(pool)
  = [mkContext "" [("name", "a"); ("type", "const")] "" "" KindUndef Data_zero].
Proof. vm_compute. reflexivity. Qed.

(** The loop over [pre ++ rest] runs [pre] and, if that ends without an
    error, goes on with [rest]. *)
Lemma fields_loop_app (m : Marshal) (source : Source)
    (recur : gotype -> place -> world -> outcome * world) (p : place)
    (pre rest : list (string * gotype * StructTag)) :
  forall i ctx w,
  fields_loop m source recur p (pre ++ rest) i ctx w =
  match fields_loop m source recur p pre i ctx w with
  | (Ok, ctx', w') => fields_loop m source recur p rest (i + length pre) ctx' w'
  | r => r
  end.
Proof.
  induction pre as [|[[fname fType] ftag] pre IH]; intros i ctx w.
  - simpl. rewrite Nat.add_0_r. reflexivity.
  - cbn [app length fields_loop].
    replace (i + S (length pre)) with (S i + length pre) by lia.
    destruct (resolve_typ m ftag) as [typ0|]; [|apply IH].
    cbn [typ set_typ].
    destruct (is_inline m typ0).
    + destruct fType as [| | | |t|elem|fs']; try reflexivity.
      * destruct elem as [| | | |t'|e'|fs'']; try reflexivity.
        destruct (inline_target (TStruct fs'') (field_place p i) w) as [[q w1]|];
          [|reflexivity].
        destruct (recur (TStruct fs'') q w1) as [[] w2]; try reflexivity. apply IH.
      * destruct (recur (TStruct fs') (field_place p i) w) as [[] w2]; try reflexivity.
        apply IH.
    + destruct (unmarshal_leaf _ _ _ _ _ _ _ _) as [[[] ctx1] w1]; try reflexivity.
      apply IH.
Qed.

(** One step of the loop, by the decoder name of the field. *)
Lemma fields_loop_cons_skip (m : Marshal) (source : Source)
    (recur : gotype -> place -> world -> outcome * world) (p : place)
    fname fType ftag rest i ctx w :
  resolve_typ m ftag = None ->
  fields_loop m source recur p ((fname, fType, ftag) :: rest) i ctx w =
  fields_loop m source recur p rest (S i)
    (set_typ (set_tag (set_field ctx fname) ftag) (StructTag_Get ftag m.(TypeTag))) w.
Proof. intros H. cbn [fields_loop]. rewrite H. reflexivity. Qed.

Lemma fields_loop_cons_leaf (m : Marshal) (source : Source)
    (recur : gotype -> place -> world -> outcome * world) (p : place)
    fname fType ftag rest i ctx w n :
  resolve_typ m ftag = Some n -> is_inline m n = false ->
  fields_loop m source recur p ((fname, fType, ftag) :: rest) i ctx w =
  match unmarshal_leaf m source fname ftag fType (field_place p i)
          (set_typ (set_tag (set_field ctx fname) ftag) n) w with
  | (Ok, ctx', w') => fields_loop m source recur p rest (S i) ctx' w'
  | r => r
  end.
Proof. intros H Hi. cbn [fields_loop]. rewrite H. cbn [typ set_typ]. rewrite Hi. reflexivity. Qed.

Lemma fields_loop_cons_inline_struct (m : Marshal) (source : Source)
    (recur : gotype -> place -> world -> outcome * world) (p : place)
    fname fs' ftag rest i ctx w n :
  resolve_typ m ftag = Some n -> is_inline m n = true ->
  fields_loop m source recur p ((fname, TStruct fs', ftag) :: rest) i ctx w =
  match recur (TStruct fs') (field_place p i) w with
  | (Ok, w') => fields_loop m source recur p rest (S i)
                  (set_typ (set_tag (set_field ctx fname) ftag) n) w'
  | (r, w') => (r, set_typ (set_tag (set_field ctx fname) ftag) n, w')
  end.
Proof. intros H Hi. cbn [fields_loop]. rewrite H. cbn [typ set_typ]. rewrite Hi. reflexivity. Qed.

Lemma fields_loop_cons_inline_ptr (m : Marshal) (source : Source)
    (recur : gotype -> place -> world -> outcome * world) (p : place)
    fname fs' ftag rest i ctx w n :
  resolve_typ m ftag = Some n -> is_inline m n = true ->
  fields_loop m source recur p ((fname, TPtr (TStruct fs'), ftag) :: rest) i ctx w =
  match inline_target (TStruct fs') (field_place p i) w with
  | Some (q, w1) =>
      match recur (TStruct fs') q w1 with
      | (Ok, w') => fields_loop m source recur p rest (S i)
                      (set_typ (set_tag (set_field ctx fname) ftag) n) w'
      | (r, w') => (r, set_typ (set_tag (set_field ctx fname) ftag) n, w')
      end
  | None => (Panic (zero_Value_panic "IsNil"), set_typ (set_tag (set_field ctx fname) ftag) n, w)
  end.
Proof. intros H Hi. cbn [fields_loop]. rewrite H. cbn [typ set_typ]. rewrite Hi. reflexivity. Qed.

(** The source key of a field: [unmarshal_leaf] skips the field exactly
    when [datum_of] has none. *)
Lemma unmarshal_leaf_skip (m : Marshal) (source : Source) fname ftag fType fValue ctx w :
  datum_of m fname ftag = None ->
  unmarshal_leaf m source fname ftag fType fValue ctx w = (Ok, set_datum ctx "", w).
Proof.
  unfold datum_of, unmarshal_leaf. cbn [datum set_datum].
  destruct (String.eqb_spec (StructTag_Get ftag (NameTag m)) "") as [E|E];
    [|discriminate].
  destruct (StrictNameTag m); [|discriminate]. intros _.
  rewrite E. reflexivity.
Qed.

Lemma unmarshal_leaf_resolved (m : Marshal) (source : Source) fname ftag fType fValue ctx w d :
  datum_of m fname ftag = Some d ->
  unmarshal_leaf m source fname ftag fType fValue ctx w =
  dispatch m source fType fValue (set_datum ctx d) w.
Proof.
  unfold datum_of, unmarshal_leaf. cbn [datum set_datum].
  destruct (String.eqb_spec (StructTag_Get ftag (NameTag m)) "") as [E|E].
  - rewrite E. destruct (StrictNameTag m); [discriminate|].
    intros [= <-]. reflexivity.
  - intros [= <-]. simpl. destruct (String.eqb_spec (StructTag_Get ftag (NameTag m)) "");
      [contradiction|]. reflexivity.
Qed.

(** [unmarshal] of a struct whose fields are [pre ++ rest], when the
    loop over [pre] runs without error. *)
Lemma unmarshal_after_prefix (m : Marshal) (source : Source) (data : Data) (p : place)
    (pre rest : list (string * gotype * StructTag)) (w : world) ctx1 w1 :
  run_prefix m source data p pre w = (Ok, ctx1, w1) ->
  unmarshal m source data (TStruct (pre ++ rest)) p w =
  let '(res, ctx, w2) :=
    fields_loop m source (unmarshal m source data) p rest (length pre) ctx1 w1 in
  (res, pool_Put (Reset ctx) w2).
Proof.
  unfold run_prefix. intros H. cbn [unmarshal].
  destruct (pool_Get w) as [ctx0 w0].
  rewrite fields_loop_app, H. reflexivity.
Qed.

(** C7 (as stated, refuted): a field whose decoder name is registered in
    both collections is skipped without error when it has no name tag
    and [StrictNameTag] is set; the lookup is never reached. *)
Lemma ambiguous_name_skipped_counterexample :
  getUnmarshaler (mk_example false) "both" = (None, None, Some ErrBothTyp) /\
  unmarshal (mk_example false) empty_source Data_zero BothT (0, [])
    (one_cell (VStruct [VInt 5]))
  = (Ok, mkWorld [VStruct [VInt 5]]
           [mkContext "" [("type", "both")] "" "" KindUndef Data_zero] []).
Proof. split; vm_compute; reflexivity. Qed.

(** C7 (amended): the registry lookup fails with [ErrBothTyp] for a name
    registered (non-nil) in both collections and with [ErrUnknownTyp] for
    a name registered in neither; a field that reaches the lookup (its
    decoder name is not the inline name and it has a source key) with
    such a name ends the call with [ErrUnknownType] carrying the field,
    its tag, the source key, the decoder name and the registry error,
    the target as the earlier fields left it. *)
Theorem unknown_decoder_error (m : Marshal) :
  (forall n, registered m.(SingleUnmarshalers) n <> None ->
     registered m.(MultiUnmarshalers) n <> None ->
     getUnmarshaler m n = (None, None, Some ErrBothTyp)) /\
  (forall n, registered m.(SingleUnmarshalers) n = None ->
     registered m.(MultiUnmarshalers) n = None ->
     getUnmarshaler m n = (None, None, Some ErrUnknownTyp)) /\
  (forall source data p pre fname fType ftag post w ctx1 w1 n d e,
     run_prefix m source data p pre w = (Ok, ctx1, w1) ->
     resolve_typ m ftag = Some n -> is_inline m n = false ->
     datum_of m fname ftag = Some d ->
     getUnmarshaler m n = (None, None, Some e) ->
     let r := unmarshal m source data (TStruct (pre ++ (fname, fType, ftag) :: post)) p w in
     r.1 = Err (ErrUnknownType fname ftag d n e) /\ r.2.(heap) = w1.(heap)).
Proof.
  split; [|split].
  - intros n Hs Hm. rewrite getUnmarshaler_registered.
    destruct (registered _ n); [|congruence].
    destruct (registered (MultiUnmarshalers m) n); [reflexivity|congruence].
  - intros n Hs Hm. rewrite getUnmarshaler_registered, Hs, Hm. reflexivity.
  - intros source data p pre fname fType ftag post w ctx1 w1 n d e
      Hpre Hres Hinl Hd Hget r. subst r.
    rewrite (unmarshal_after_prefix _ _ _ _ _ _ _ _ _ Hpre).
    rewrite (fields_loop_cons_leaf _ _ _ _ _ _ _ _ _ _ _ _ Hres Hinl).
    rewrite (unmarshal_leaf_resolved _ _ _ _ _ _ _ _ _ Hd).
    unfold dispatch. cbn [typ set_typ set_datum]. rewrite Hget.
    split; reflexivity.
Qed.

Lemma unknown_decoder_error_witness :
  run_prefix (mk_example true) empty_source Data_zero (0, []) [] (one_cell (VStruct [VInt 5]))
    = (Ok, set_data context_new Data_zero, one_cell (VStruct [VInt 5])) /\
  resolve_typ (mk_example true) [("name", "b"); ("type", "both")] = Some "both" /\
  is_inline (mk_example true) "both" = false /\
  datum_of (mk_example true) "B" [("name", "b"); ("type", "both")] = Some "b" /\
  getUnmarshaler (mk_example true) "both" = (None, None, Some ErrBothTyp) /\
  (unmarshal (mk_example true) empty_source Data_zero
     (TStruct ([] ++ [("B", TInt, [("name", "b"); ("type", "both")])])) (0, [])
     (one_cell (VStruct [VInt 5]))).1
  = Err (ErrUnknownType "B" [("name", "b"); ("type", "both")] "b" "both" ErrBothTyp).
Proof.
  do 5 (split; [vm_compute; reflexivity|]).
  refine (proj1 (proj2 (proj2 (unknown_decoder_error (mk_example true)))
            empty_source Data_zero (0, []) [] "B" TInt [("name", "b"); ("type", "both")] []
            (one_cell (VStruct [VInt 5])) (set_data context_new Data_zero)
            (one_cell (VStruct [VInt 5])) "both" "b" ErrBothTyp _ _ _ _ _));
    vm_compute; reflexivity.
Defined.

(** C2 (as stated, refuted): in an [Outer] whose pointer [P] points to
    its own later field [Y], the decoder of [X] fails, yet [Y], which
    comes after [X], no longer holds its prior value: decoding [P]
    before the failure wrote through the alias. *)
Lemma decoder_error_alias_counterexample :
  let r := unmarshal (mk_example false) empty_source Data_zero Outer (0, []) aliased_world in
  r.1 = Err (ErrFailedToProcessField "X" [("name", "x"); ("type", "fail")] "x" "fail"
               KindSingleUnmarshaler (ErrorString "fail")) /\
  heap_get aliased_world.(heap) (field_place (0, []) 2) = Some (VStruct [VInt 7]) /\
  heap_get r.2.(heap) (field_place (0, []) 2) = Some (VStruct [VInt 42]).
Proof. vm_compute. repeat split. Qed.

(** C2 (amended): when the single or multi unmarshaler of a field
    returns an error, the call returns [ErrFailedToProcessField] with the
    field, its tag, its source key, its decoder name, the kind and the
    cause; the heap is exactly the one the earlier fields left (no
    rollback, nothing written for this field or any later one) and the
    only further call on the source is this field's lookup. *)
Theorem decoder_error_stops (m : Marshal) (source : Source) (data : Data) (p : place)
    pre fname fType ftag post (w : world) ctx1 w1 n d e :
  run_prefix m source data p pre w = (Ok, ctx1, w1) ->
  resolve_typ m ftag = Some n -> is_inline m n = false ->
  datum_of m fname ftag = Some d ->
  let ctxf := set_datum (set_typ (set_tag (set_field ctx1 fname) ftag) n) d in
  let r := unmarshal m source data (TStruct (pre ++ (fname, fType, ftag) :: post)) p w in
  ((exists f, getUnmarshaler m n = (Some f, None, None) /\
      (f (source.(Lookup) d).1 (source.(Lookup) d).2
         (set_kind ctxf KindSingleUnmarshaler)).2 = Some e) ->
   r.1 = Err (ErrFailedToProcessField fname ftag d n KindSingleUnmarshaler e) /\
   r.2.(heap) = w1.(heap) /\ r.2.(trace) = (w1.(trace) ++ [LookupCall d])%list) /\
  ((exists g, getUnmarshaler m n = (None, Some g, None) /\
      (g (source.(LookupAll) d).1 (source.(LookupAll) d).2
         (set_kind ctxf KindMultiUnmarshaler)).2 = Some e) ->
   r.1 = Err (ErrFailedToProcessField fname ftag d n KindMultiUnmarshaler e) /\
   r.2.(heap) = w1.(heap) /\ r.2.(trace) = (w1.(trace) ++ [LookupAllCall d])%list).
Proof.
  intros Hpre Hres Hinl Hd ctxf r. subst r.
  rewrite (unmarshal_after_prefix _ _ _ _ _ _ _ _ _ Hpre).
  rewrite (fields_loop_cons_leaf _ _ _ _ _ _ _ _ _ _ _ _ Hres Hinl).
  rewrite (unmarshal_leaf_resolved _ _ _ _ _ _ _ _ _ Hd).
  unfold dispatch. simpl_ctx.
  split.
  - intros (f & Hget & Hf). rewrite Hget.
    destruct (Lookup source d) as [rv rok]. cbn [fst snd] in Hf.
    unfold ctxf in Hf. simpl_ctx.
    destruct (f rv rok _) as [pv pe]. cbn [snd] in Hf. subst pe.
    repeat split.
  - intros (g & Hget & Hg). rewrite Hget.
    destruct (LookupAll source d) as [rv rok]. cbn [fst snd] in Hg.
    unfold ctxf in Hg. simpl_ctx.
    destruct (g rv rok _) as [pv pe]. cbn [snd] in Hg. subst pe.
    repeat split.
Qed.

Lemma decoder_error_stops_witness :
  let w := one_cell (VStruct [VInt 1; VInt 2; VInt 3]) in
  let pre := [("A", TInt, [("name", "a"); ("type", "const")])] in
  let w1 := mkWorld [VStruct [VInt 42; VInt 2; VInt 3]] [] [LookupCall "a"] in
  run_prefix (mk_example false) empty_source Data_zero (0, []) pre w
    = (Ok, mkContext "A" [("name", "a"); ("type", "const")] "a" "const"
             KindSingleUnmarshaler Data_zero, w1) /\
  resolve_typ (mk_example false) [("name", "x"); ("type", "fail")] = Some "fail" /\
  is_inline (mk_example false) "fail" = false /\
  datum_of (mk_example false) "X" [("name", "x"); ("type", "fail")] = Some "x" /\
  let r := unmarshal (mk_example false) empty_source Data_zero
             (TStruct (pre ++ ("X", TInt, [("name", "x"); ("type", "fail")])
                           :: [("B", TInt, [("name", "b"); ("type", "const")])])) (0, []) w in
  r.1 = Err (ErrFailedToProcessField "X" [("name", "x"); ("type", "fail")] "x" "fail"
               KindSingleUnmarshaler (ErrorString "fail")) /\
  r.2.(heap) = w1.(heap) /\ r.2.(trace) = (w1.(trace) ++ [LookupCall "x"])%list.
Proof.
  intros w pre w1.
  do 4 (split; [vm_compute; reflexivity|]).
  refine (proj1 (decoder_error_stops (mk_example false) empty_source Data_zero (0, []) pre
            "X" TInt [("name", "x"); ("type", "fail")]
            [("B", TInt, [("name", "b"); ("type", "const")])] w
            (mkContext "A" [("name", "a"); ("type", "const")] "a" "const"
               KindSingleUnmarshaler Data_zero) w1 "fail" "x" (ErrorString "fail")
            _ _ _ _) _).
  1-4: vm_compute; reflexivity.
  exists dfail. split; vm_compute; reflexivity.
Defined.

(* ------------------------------------------------------------------ *)
(** ** The heap *)

Lemma vget_vset_same (v : value) (path : list nat) (x : value) :
  is_Some (vget v path) -> vget (vset v path x) path = Some x.
Proof.
  revert v. induction path as [|i r IH]; intros v Hs; [reflexivity|].
  destruct v as [| | | | |vs]; simpl in Hs |- *; try (destruct Hs; discriminate).
  destruct (vs !! i) as [vi|] eqn:Ei; [|destruct Hs; discriminate].
  simpl. rewrite list_lookup_insert_eq by (apply lookup_lt_is_Some; eauto).
  apply IH. exact Hs.
Qed.

(** Setting field [k] of the struct at a path leaves its field [j] alone. *)
Lemma vget_vset_sibling (v : value) (path : list nat) (k j : nat) (x : value) :
  k <> j ->
  vget (vset v (path ++ [k]) x) (path ++ [j]) = vget v (path ++ [j]).
Proof.
  intros Hkj. revert v. induction path as [|i r IH]; intros v.
  - destruct v as [| | | | |vs]; simpl; try reflexivity.
    destruct (vs !! k) as [vk|] eqn:Ek; simpl; [|reflexivity].
    rewrite list_lookup_insert_ne by exact Hkj. reflexivity.
  - destruct v as [| | | | |vs]; cbn [app vset vget]; try reflexivity.
    destruct (vs !! i) as [vi|] eqn:Ei; cbn [vget]; [|rewrite Ei; reflexivity].
    rewrite list_lookup_insert_eq by (apply lookup_lt_is_Some; eauto).
    apply IH.
Qed.

Lemma heap_get_set_same (h : list value) (p : place) (x : value) :
  is_Some (heap_get h p) -> heap_get (heap_set h p x) p = Some x.
Proof.
  unfold heap_get, heap_set. destruct (h !! p.1) as [v|] eqn:E; [|intros [? Hc]; discriminate].
  intros Hs. rewrite list_lookup_insert_eq by (apply lookup_lt_is_Some; eauto).
  apply vget_vset_same. exact Hs.
Qed.

Lemma heap_get_set_sibling (h : list value) (p : place) (k j : nat) (x : value) :
  k <> j ->
  heap_get (heap_set h (field_place p k) x) (field_place p j) = heap_get h (field_place p j).
Proof.
  intros Hkj. unfold heap_get, heap_set, field_place. cbn [fst snd].
  destruct (h !! p.1) as [v|] eqn:E; [|rewrite E; reflexivity].
  rewrite list_lookup_insert_eq by (apply lookup_lt_is_Some; eauto).
  apply vget_vset_sibling. exact Hkj.
Qed.

Lemma heap_get_set_other_cell (h : list value) (p q : place) (x : value) :
  p.1 <> q.1 -> heap_get (heap_set h p x) q = heap_get h q.
Proof.
  intros Hpq. unfold heap_get, heap_set.
  destruct (h !! p.1) as [v|]; [|reflexivity].
  rewrite list_lookup_insert_ne by exact Hpq. reflexivity.
Qed.

Lemma heap_get_lt (h : list value) (p : place) :
  is_Some (heap_get h p) -> p.1 < length h.
Proof.
  unfold heap_get. destruct (h !! p.1) eqn:E; [|intros [? Hc]; discriminate].
  intros _. apply lookup_lt_is_Some. eauto.
Qed.

Lemma heap_get_app (h : list value) (z : value) (p : place) :
  p.1 < length h -> heap_get (h ++ [z]) p = heap_get h p.
Proof. intros Hl. unfold heap_get. rewrite lookup_app_l by exact Hl. reflexivity. Qed.

Lemma heap_get_new_cell (h : list value) (z : value) :
  heap_get (h ++ [z]) (length h, []) = Some z.
Proof. unfold heap_get. cbn [fst snd]. rewrite lookup_app_r by lia.
  rewrite Nat.sub_diag. reflexivity. Qed.

(* ------------------------------------------------------------------ *)
(** ** Name tags and decoder names *)

(** C4 (as stated, refuted): under [StrictNameTag] a field without a
    name tag is not left untouched when its decoder name is the inline
    name: the nil pointer [P] of a [Holder] is allocated and the nested
    field read from the source and written. *)
Lemma strict_name_tag_inline_counterexample :
  StructTag_Get [("type", "inline")] (mk_example false).(NameTag) = "" /\
  (mk_example false).(StrictNameTag) = true /\
  (unmarshal (mk_example false) empty_source Data_zero Holder (0, [])
     (one_cell (VStruct [VPtr None]))).2
  = mkWorld [VStruct [VPtr (Some (1, []))]; VStruct [VInt 42]]
      [mkContext "" [("type", "inline")] "" "" KindUndef Data_zero;
       mkContext "" [("name", "a"); ("type", "const")] "" "" KindUndef Data_zero]
      [LookupCall "a"].
Proof. repeat split; vm_compute; reflexivity. Qed.

(** C4 (amended): under [StrictNameTag], a field without a name tag
    whose decoder name is absent or not the inline name is left
    untouched: the loop goes on with the next field and the same world
    (no source call, no write, no error), whatever its decoder tag. *)
Theorem strict_name_tag_untouched (m : Marshal) (source : Source)
    (recur : gotype -> place -> world -> outcome * world) (p : place)
    fname fType ftag rest i ctx w :
  StructTag_Get ftag m.(NameTag) = "" -> m.(StrictNameTag) = true ->
  (forall n, resolve_typ m ftag = Some n -> is_inline m n = false) ->
  exists ctx',
    fields_loop m source recur p ((fname, fType, ftag) :: rest) i ctx w =
    fields_loop m source recur p rest (S i) ctx' w.
Proof.
  intros Hname Hstrict Hinl.
  assert (Hd : datum_of m fname ftag = None).
  { unfold datum_of. rewrite Hname, Hstrict. reflexivity. }
  destruct (resolve_typ m ftag) as [n|] eqn:Hres.
  - rewrite (fields_loop_cons_leaf _ _ _ _ _ _ _ _ _ _ _ _ Hres (Hinl n eq_refl)).
    rewrite (unmarshal_leaf_skip _ _ _ _ _ _ _ _ Hd). eexists. reflexivity.
  - rewrite (fields_loop_cons_skip _ _ _ _ _ _ _ _ _ _ _ Hres). eexists. reflexivity.
Qed.

Lemma strict_name_tag_untouched_witness :
  StructTag_Get [("type", "const")] (mk_example false).(NameTag) = "" /\
  (mk_example false).(StrictNameTag) = true /\
  exists ctx',
    fields_loop (mk_example false) empty_source (unmarshal (mk_example false) empty_source Data_zero)
      (0, []) [("A", TInt, [("type", "const")])] 0 context_new (one_cell (VStruct [VInt 9])) =
    fields_loop (mk_example false) empty_source (unmarshal (mk_example false) empty_source Data_zero)
      (0, []) [] 1 ctx' (one_cell (VStruct [VInt 9])).
Proof.
  split; [reflexivity|split; [reflexivity|]].
  apply (strict_name_tag_untouched (mk_example false) empty_source
           (unmarshal (mk_example false) empty_source Data_zero) (0, [])
           "A" TInt [("type", "const")] [] 0 context_new (one_cell (VStruct [VInt 9])));
    [reflexivity|reflexivity|].
  intros n Hn. vm_compute in Hn. injection Hn as <-. reflexivity.
Defined.

(** C1: the decoder name of a field is resolved once, the decoder tag
    before [DefaultType]: with neither the field is skipped with the world
    unchanged; a non-empty decoder tag that is not the inline name sends
    the field to the registry under that name whatever the default; an
    untagged field uses the non-empty default; and when the default is the
    (non-empty) inline name, an untagged struct or pointer-to-struct field
    is decoded recursively. *)
Theorem decoder_name_resolved_once (m : Marshal) (source : Source)
    (recur : gotype -> place -> world -> outcome * world) (p : place)
    fname ftag rest i ctx w :
  let tv := StructTag_Get ftag m.(TypeTag) in
  let ctx0 := set_tag (set_field ctx fname) ftag in
  (tv = "" -> m.(DefaultType) = "" -> forall fType,
     fields_loop m source recur p ((fname, fType, ftag) :: rest) i ctx w =
     fields_loop m source recur p rest (S i) (set_typ ctx0 "") w) /\
  (tv <> "" -> is_inline m tv = false -> forall fType,
     fields_loop m source recur p ((fname, fType, ftag) :: rest) i ctx w =
     match unmarshal_leaf m source fname ftag fType (field_place p i) (set_typ ctx0 tv) w with
     | (Ok, ctx', w') => fields_loop m source recur p rest (S i) ctx' w'
     | r => r
     end) /\
  (tv = "" -> m.(DefaultType) <> "" -> is_inline m m.(DefaultType) = false -> forall fType,
     fields_loop m source recur p ((fname, fType, ftag) :: rest) i ctx w =
     match unmarshal_leaf m source fname ftag fType (field_place p i)
             (set_typ ctx0 m.(DefaultType)) w with
     | (Ok, ctx', w') => fields_loop m source recur p rest (S i) ctx' w'
     | r => r
     end) /\
  (tv = "" -> m.(DefaultType) = m.(InlineType) -> m.(InlineType) <> "" ->
     (forall fs',
        fields_loop m source recur p ((fname, TStruct fs', ftag) :: rest) i ctx w =
        match recur (TStruct fs') (field_place p i) w with
        | (Ok, w') => fields_loop m source recur p rest (S i) (set_typ ctx0 m.(InlineType)) w'
        | (r, w') => (r, set_typ ctx0 m.(InlineType), w')
        end) /\
     (forall fs',
        fields_loop m source recur p ((fname, TPtr (TStruct fs'), ftag) :: rest) i ctx w =
        match inline_target (TStruct fs') (field_place p i) w with
        | Some (q, w1) =>
            match recur (TStruct fs') q w1 with
            | (Ok, w') => fields_loop m source recur p rest (S i) (set_typ ctx0 m.(InlineType)) w'
            | (r, w') => (r, set_typ ctx0 m.(InlineType), w')
            end
        | None => (Panic (zero_Value_panic "IsNil"), set_typ ctx0 m.(InlineType), w)
        end)).
Proof.
  intros tv ctx0.
  assert (Hdef : tv = "" -> resolve_typ m ftag =
            if String.eqb m.(DefaultType) "" then None else Some m.(DefaultType)).
  { intros Htv. unfold resolve_typ. fold tv. rewrite Htv. reflexivity. }
  split; [|split; [|split]].
  - intros Htv Hd fType. rewrite fields_loop_cons_skip.
    + fold tv. rewrite Htv. reflexivity.
    + rewrite (Hdef Htv), Hd. reflexivity.
  - intros Htv Hinl fType. apply fields_loop_cons_leaf; [|exact Hinl].
    unfold resolve_typ. fold tv. destruct (String.eqb_spec tv ""); [contradiction|reflexivity].
  - intros Htv Hd Hinl fType. apply fields_loop_cons_leaf; [|exact Hinl].
    rewrite (Hdef Htv). destruct (String.eqb_spec (DefaultType m) ""); [contradiction|reflexivity].
  - intros Htv Hd Hi.
    assert (Hres : resolve_typ m ftag = Some m.(InlineType)).
    { rewrite (Hdef Htv), Hd. destruct (String.eqb_spec (InlineType m) ""); [contradiction|reflexivity]. }
    assert (Hinl : is_inline m m.(InlineType) = true).
    { unfold is_inline. destruct (String.eqb_spec (InlineType m) ""); [contradiction|].
      rewrite String.eqb_refl. reflexivity. }
    split; intros fs'.
    + apply fields_loop_cons_inline_struct; assumption.
    + apply fields_loop_cons_inline_ptr; assumption.
Qed.

Lemma decoder_name_resolved_once_witness :
  StructTag_Get [] mk_default_inline.(TypeTag) = "" /\
  mk_default_inline.(DefaultType) = mk_default_inline.(InlineType) /\
  mk_default_inline.(InlineType) <> "" /\
  fields_loop mk_default_inline empty_source (unmarshal mk_default_inline empty_source Data_zero)
    (0, []) [("L", Leaf, [])] 0 context_new (one_cell (VStruct [VStruct [VInt 0]])) =
  match unmarshal mk_default_inline empty_source Data_zero Leaf (0, [0])
          (one_cell (VStruct [VStruct [VInt 0]])) with
  | (Ok, w') => fields_loop mk_default_inline empty_source
                  (unmarshal mk_default_inline empty_source Data_zero) (0, []) [] 1
                  (set_typ (set_tag (set_field context_new "L") []) "inline") w'
  | (r, w') => (r, set_typ (set_tag (set_field context_new "L") []) "inline", w')
  end.
Proof.
  split; [reflexivity|split; [reflexivity|split; [discriminate|]]].
  refine (proj1 (proj2 (proj2 (proj2 (decoder_name_resolved_once mk_default_inline empty_source
            (unmarshal mk_default_inline empty_source Data_zero) (0, []) "L" [] [] 0
            context_new (one_cell (VStruct [VStruct [VInt 0]]))))) _ _ _)
          [("A", TInt, [("name", "a"); ("type", "const")])]);
    [reflexivity|reflexivity|discriminate].
Defined.

(* ------------------------------------------------------------------ *)
(** ** Strict typing *)

(** With [StrictTyping] the returned value is not converted: a nil return
    panics in [rValue.Type()], a non-nil one is assigned as it is when
    assignable and gives a [WrongType] with [Assignment] set otherwise. *)
Lemma reconcile_strict (pValue : ival) (fType : gotype) :
  reconcile true pValue fType =
  match pValue with
  | None => RPanic (zero_Value_panic "Type")
  | Some (t, v) => if AssignableTo t fType then Assign v else WrongType true t None
  end.
Proof.
  unfold reconcile. destruct pValue as [[t v]|]; cbn [negb]; [|reflexivity].
  destruct (AssignableTo t fType); reflexivity.
Qed.

(** C5 (the code's behaviour at the failing input): with [StrictTyping]
    a decoder that returns nil and no error makes the call panic in
    [reflect.Value.Type] instead of failing with [WrongType]. *)
Theorem strict_nil_return_panics :
  (unmarshal (mk_example true) empty_source Data_zero Nils (0, [])
     (one_cell (VStruct [VInt 3]))).1
  = Panic "reflect: call of reflect.Value.Type on zero Value".
Proof. vm_compute. reflexivity. Qed.

(* ------------------------------------------------------------------ *)
(** ** Writes of a field *)

(** [dispatch] writes at most the field it decodes. *)
Lemma dispatch_heap (m : Marshal) (source : Source) fType fValue ctx w res ctx' w' :
  dispatch m source fType fValue ctx w = (res, ctx', w') ->
  w'.(heap) = w.(heap) \/ exists v, w'.(heap) = heap_set w.(heap) fValue v.
Proof.
  unfold dispatch.
  destruct (getUnmarshaler m (typ ctx)) as [[single multi] [err|]].
  { intros [= _ _ <-]. left. reflexivity. }
  destruct single as [f|]; [|destruct multi as [g|]].
  - destruct (Lookup source (datum ctx)) as [rv rok].
    destruct (f rv rok _) as [pv [e|]].
    + intros [= _ _ <-]. left. reflexivity.
    + destruct (reconcile _ pv fType) as [v|a t c|msg]; intros [= _ _ <-];
        [right; exists v|left|left]; reflexivity.
  - destruct (LookupAll source (datum ctx)) as [rv rok].
    destruct (g rv rok _) as [pv [e|]].
    + intros [= _ _ <-]. left. reflexivity.
    + destruct (reconcile _ pv fType) as [v|a t c|msg]; intros [= _ _ <-];
        [right; exists v|left|left]; reflexivity.
  - destruct (reconcile _ None fType) as [v|a t c|msg]; intros [= _ _ <-];
      [right; exists v|left|left]; reflexivity.
Qed.

(** The loop over fields none of which is inlined leaves field [j] of
    the struct alone when that field is skipped (it has no decoder name
    or no source key) or lies outside the fields processed. *)
Lemma fields_loop_flat_frame (m : Marshal) (source : Source)
    (recur : gotype -> place -> world -> outcome * world) (q : place) fs :
  (forall k fname ft ftag n, fs !! k = Some (fname, ft, ftag) ->
     resolve_typ m ftag = Some n -> is_inline m n = false) ->
  forall i ctx w j,
  (forall fname ft ftag, i <= j -> fs !! (j - i) = Some (fname, ft, ftag) ->
     resolve_typ m ftag = None \/ datum_of m fname ftag = None) ->
  heap_get (fields_loop m source recur q fs i ctx w).2.(heap) (field_place q j) =
  heap_get w.(heap) (field_place q j).
Proof.
  induction fs as [|[[fname fType] ftag] rest IH]; intros Hflat i ctx w j Hj;
    [reflexivity|].
  assert (Hflat' : forall k fname ft ftag n, rest !! k = Some (fname, ft, ftag) ->
            resolve_typ m ftag = Some n -> is_inline m n = false).
  { intros k. apply (Hflat (S k)). }
  assert (Hj' : forall fname ft ftag, S i <= j -> rest !! (j - S i) = Some (fname, ft, ftag) ->
            resolve_typ m ftag = None \/ datum_of m fname ftag = None).
  { intros fn ft tg Hle Hk. apply (Hj fn ft tg); [lia|].
    replace (j - i) with (S (j - S i)) by lia. exact Hk. }
  destruct (resolve_typ m ftag) as [n|] eqn:Hres.
  - rewrite (fields_loop_cons_leaf _ _ _ _ _ _ _ _ _ _ _ _ Hres (Hflat 0 _ _ _ _ eq_refl Hres)).
    destruct (datum_of m fname ftag) as [d|] eqn:Hd.
    + rewrite (unmarshal_leaf_resolved _ _ _ _ _ _ _ _ _ Hd).
      assert (Hij : i <> j).
      { intros <-. rewrite Nat.sub_diag in Hj.
        destruct (Hj fname fType ftag (le_n _) eq_refl) as [H|H]; congruence. }
      destruct (dispatch _ _ _ _ _ _) as [[res ctx1] w1] eqn:Hdis.
      assert (Hw1 : heap_get w1.(heap) (field_place q j) = heap_get w.(heap) (field_place q j)).
      { destruct (dispatch_heap _ _ _ _ _ _ _ _ _ Hdis) as [-> | [v ->]];
          [reflexivity|apply heap_get_set_sibling; exact Hij]. }
      destruct res; cbn [snd]; try exact Hw1.
      rewrite IH by assumption. exact Hw1.
    + rewrite (unmarshal_leaf_skip _ _ _ _ _ _ _ _ Hd). apply IH; assumption.
  - rewrite (fields_loop_cons_skip _ _ _ _ _ _ _ _ _ _ _ Hres). apply IH; assumption.
Qed.

(** [unmarshal] of such a struct leaves the skipped fields alone. *)
Lemma unmarshal_flat_frame (m : Marshal) (source : Source) (data : Data) fs q w j :
  (forall k fname ft ftag n, fs !! k = Some (fname, ft, ftag) ->
     resolve_typ m ftag = Some n -> is_inline m n = false) ->
  (forall fname ft ftag, fs !! j = Some (fname, ft, ftag) ->
     resolve_typ m ftag = None \/ datum_of m fname ftag = None) ->
  heap_get (unmarshal m source data (TStruct fs) q w).2.(heap) (field_place q j) =
  heap_get w.(heap) (field_place q j).
Proof.
  intros Hflat Hj. cbn [unmarshal].
  destruct (pool_Get w) as [ctx w0] eqn:Hget.
  assert (Hw0 : w0.(heap) = w.(heap)).
  { unfold pool_Get in Hget. destruct (pool w); injection Hget as _ <-; reflexivity. }
  pose proof (fields_loop_flat_frame m source (unmarshal m source data) q fs Hflat
                0 (set_data ctx data) w0 j) as H.
  destruct (fields_loop _ _ _ _ _ _ _ _) as [[res ctx1] w1].
  cbn [snd] in H |- *. unfold pool_Put, set_pool. cbn [heap].
  rewrite H, Hw0; [reflexivity|].
  intros fn ft tg _. rewrite Nat.sub_0_r. apply Hj.
Qed.

(** C3: an inlined pointer-to-struct field.  When it is nil, a fresh
    cell holding the zero struct is allocated, the field is set to point
    to it, and the nested decode runs on it; when it is non-nil, the
    nested decode runs on the struct it points to, in the same world (no
    allocation, no write before it).  A nested decode of a struct with no
    inlined field leaves every skipped field of that struct with its
    prior value. *)
Theorem inline_pointer_in_place (m : Marshal) (source : Source) (data : Data) (p : place)
    fname fs' ftag rest i ctx w n :
  resolve_typ m ftag = Some n -> is_inline m n = true ->
  let fl := fields_loop m source (unmarshal m source data) p
              ((fname, TPtr (TStruct fs'), ftag) :: rest) i ctx w in
  let ctx' := set_typ (set_tag (set_field ctx fname) ftag) n in
  (heap_get w.(heap) (field_place p i) = Some (VPtr None) ->
     let q := (length w.(heap), []) in
     let w1 := set_place (field_place p i) (VPtr (Some q))
                 (set_heap w (w.(heap) ++ [zero (TStruct fs')])%list) in
     heap_get w1.(heap) q = Some (zero (TStruct fs')) /\
     heap_get w1.(heap) (field_place p i) = Some (VPtr (Some q)) /\
     fl = match unmarshal m source data (TStruct fs') q w1 with
          | (Ok, w') => fields_loop m source (unmarshal m source data) p rest (S i) ctx' w'
          | (r, w') => (r, ctx', w')
          end) /\
  (forall q, heap_get w.(heap) (field_place p i) = Some (VPtr (Some q)) ->
     fl = match unmarshal m source data (TStruct fs') q w with
          | (Ok, w') => fields_loop m source (unmarshal m source data) p rest (S i) ctx' w'
          | (r, w') => (r, ctx', w')
          end /\
     ((forall k fname' ft ftag' n', fs' !! k = Some (fname', ft, ftag') ->
         resolve_typ m ftag' = Some n' -> is_inline m n' = false) ->
      forall j, (forall fname' ft ftag', fs' !! j = Some (fname', ft, ftag') ->
                   resolve_typ m ftag' = None \/ datum_of m fname' ftag' = None) ->
      heap_get (unmarshal m source data (TStruct fs') q w).2.(heap) (field_place q j) =
      heap_get w.(heap) (field_place q j))).
Proof.
  intros Hres Hinl fl ctx'. subst fl.
  rewrite (fields_loop_cons_inline_ptr _ _ _ _ _ _ _ _ _ _ _ _ Hres Hinl).
  split.
  - intros Hnil q w1.
    assert (Hlt : (field_place p i).1 < length w.(heap)).
    { apply heap_get_lt. rewrite Hnil. eauto. }
    unfold inline_target. rewrite Hnil. cbn [reflect_New].
    split; [|split].
    + unfold w1, set_place, q. cbn [heap set_heap].
      rewrite heap_get_set_other_cell by (cbn [fst] in *; lia).
      apply heap_get_new_cell.
    + unfold w1, set_place. cbn [heap set_heap].
      apply heap_get_set_same. rewrite heap_get_app by exact Hlt. rewrite Hnil. eauto.
    + reflexivity.
  - intros q Hq. split.
    + unfold inline_target. rewrite Hq. reflexivity.
    + intros Hflat j Hj. apply unmarshal_flat_frame; assumption.
Qed.

Lemma inline_pointer_in_place_witness :
  resolve_typ (mk_example false) [("type", "inline")] = Some "inline" /\
  is_inline (mk_example false) "inline" = true /\
  heap_get [VStruct [VPtr (Some (1, []))]; VStruct [VInt 5; VInt 6]] (field_place (0, []) 0)
    = Some (VPtr (Some (1, []))) /\
  heap_get (unmarshal (mk_example false) empty_source Data_zero
              (TStruct [("A", TInt, [("name", "a"); ("type", "const")]); ("B", TInt, [])])
              (1, []) (mkWorld [VStruct [VPtr (Some (1, []))]; VStruct [VInt 5; VInt 6]] [] []))
             .2.(heap) (field_place (1, []) 1)
  = Some (VInt 6).
Proof.
  do 3 (split; [reflexivity|]).
  refine (eq_trans (proj2 (proj2 (inline_pointer_in_place (mk_example false) empty_source Data_zero
            (0, []) "P" [("A", TInt, [("name", "a"); ("type", "const")]); ("B", TInt, [])]
            [("type", "inline")] [] 0 context_new
            (mkWorld [VStruct [VPtr (Some (1, []))]; VStruct [VInt 5; VInt 6]] [] []) "inline"
            _ _) (1, []) _) _ 1 _) _);
    [reflexivity|reflexivity|reflexivity| | |reflexivity].
  - intros k fn ft tg n' Hk Hn'.
    destruct k as [|[|k]]; cbn in Hk; [| |discriminate]; injection Hk as <- <- <-;
      vm_compute in Hn'; [injection Hn' as <-; reflexivity|discriminate].
  - intros fn ft tg Hk. cbn in Hk. injection Hk as <- <- <-. left. reflexivity.
Defined.

(* ------------------------------------------------------------------ *)
(** ** The zero value for a nil return *)

(** Without [StrictTyping] a nil return is replaced by the zero value of
    the field type. *)
Lemma reconcile_nil_zero (fType : gotype) :
  reconcile false None fType = Assign (zero fType).
Proof. reflexivity. Qed.

(** The loop over fields that all reach a default-substituting decoder,
    on an empty source and without [StrictTyping], runs to its end and
    leaves each of them zero and the fields before it alone. *)
Lemma fields_loop_zero (m : Marshal) (source : Source)
    (recur : gotype -> place -> world -> outcome * world) (p : place) fs :
  m.(StrictTyping) = false -> source_empty source ->
  (forall k fname ft ftag, fs !! k = Some (fname, ft, ftag) ->
     exists n d, resolve_typ m ftag = Some n /\ is_inline m n = false /\
       datum_of m fname ftag = Some d /\ substitutes_default m n) ->
  forall i ctx w,
  (forall k, k < length fs -> is_Some (heap_get w.(heap) (field_place p (i + k)))) ->
  let r := fields_loop m source recur p fs i ctx w in
  r.1.1 = Ok /\
  (forall k fname ft ftag, fs !! k = Some (fname, ft, ftag) ->
     heap_get r.2.(heap) (field_place p (i + k)) = Some (zero ft)) /\
  (forall j, j < i -> heap_get r.2.(heap) (field_place p j) = heap_get w.(heap) (field_place p j)).
Proof.
  intros Hstrict [Hsrc Hsrc_all] Hall.
  induction fs as [|[[fname fType] ftag] rest IH]; intros i ctx w Hdef r; subst r.
  { split; [reflexivity|split; [|reflexivity]]. intros k ? ? ? Hk. destruct k; discriminate. }
  destruct (Hall 0 fname fType ftag eq_refl) as (n & d & Hres & Hinl & Hd & Hsub).
  rewrite (fields_loop_cons_leaf _ _ _ _ _ _ _ _ _ _ _ _ Hres Hinl).
  rewrite (unmarshal_leaf_resolved _ _ _ _ _ _ _ _ _ Hd).
  set (fv := field_place p i).
  assert (Hdis : exists ctx1,
            dispatch m source fType fv
              (set_datum (set_typ (set_tag (set_field ctx fname) ftag) n) d) w =
            (Ok, ctx1, set_place fv (zero fType)
                         (log_event w (if single_of m n then LookupCall d else LookupAllCall d)))).
  { unfold dispatch. simpl_ctx.
    destruct Hsub as [(f & Hget & Hf) | (g & Hget & Hg)]; rewrite Hget.
    - rewrite Hsrc. simpl_ctx. rewrite Hf, Hstrict. eexists.
      unfold single_of. rewrite Hget. reflexivity.
    - rewrite Hsrc_all. simpl_ctx. rewrite Hg, Hstrict. eexists.
      unfold single_of. rewrite Hget. reflexivity. }
  destruct Hdis as [ctx1 ->].
  set (w1 := set_place fv (zero fType) _).
  assert (Hsame : heap_get w1.(heap) fv = Some (zero fType)).
  { apply heap_get_set_same. cbn [log_event heap].
    pose proof (Hdef 0 ltac:(simpl; lia)) as H0. rewrite Nat.add_0_r in H0. exact H0. }
  assert (Hsib : forall j, j <> i -> heap_get w1.(heap) (field_place p j) =
                                     heap_get w.(heap) (field_place p j)).
  { intros j Hj. apply heap_get_set_sibling. congruence. }
  assert (Hall' : forall k fname ft ftag, rest !! k = Some (fname, ft, ftag) ->
            exists n d, resolve_typ m ftag = Some n /\ is_inline m n = false /\
              datum_of m fname ftag = Some d /\ substitutes_default m n).
  { intros k. apply (Hall (S k)). }
  assert (Hdef' : forall k, k < length rest ->
            is_Some (heap_get w1.(heap) (field_place p (S i + k)))).
  { intros k Hk. rewrite Hsib by lia. replace (S i + k) with (i + S k) by lia.
    apply Hdef. simpl. lia. }
  destruct (IH Hall' (S i) ctx1 w1 Hdef') as (Hok & Hzero & Hkeep).
  cbv beta iota.
  split; [exact Hok|split].
  - intros [|k] fn ft tg Hk.
    + cbn in Hk. injection Hk as <- <- <-. rewrite Nat.add_0_r.
      rewrite Hkeep by lia. exact Hsame.
    + replace (i + S k) with (S i + k) by lia. exact (Hzero k fn ft tg Hk).
  - intros j Hj. rewrite Hkeep by lia. apply Hsib. lia.
Qed.

(** C6: without [StrictTyping], a decoder that returns nil and no error
    has the field set to the zero value of its type and the call goes
    on; so decoding an empty source into a struct whose fields all reach
    such a decoder succeeds and leaves every field zero. *)
Theorem nil_return_zero (m : Marshal) (source : Source) :
  m.(StrictTyping) = false ->
  (forall fType fValue ctx w f,
     getUnmarshaler m ctx.(typ) = (Some f, None, None) ->
     f (source.(Lookup) ctx.(datum)).1 (source.(Lookup) ctx.(datum)).2
       (set_kind ctx KindSingleUnmarshaler) = (None, None) ->
     dispatch m source fType fValue ctx w =
     (Ok, set_kind ctx KindSingleUnmarshaler,
      set_place fValue (zero fType) (log_event w (LookupCall ctx.(datum))))) /\
  (forall fType fValue ctx w g,
     getUnmarshaler m ctx.(typ) = (None, Some g, None) ->
     g (source.(LookupAll) ctx.(datum)).1 (source.(LookupAll) ctx.(datum)).2
       (set_kind ctx KindMultiUnmarshaler) = (None, None) ->
     dispatch m source fType fValue ctx w =
     (Ok, set_kind ctx KindMultiUnmarshaler,
      set_place fValue (zero fType) (log_event w (LookupAllCall ctx.(datum))))) /\
  (forall data fs p w,
     source_empty source ->
     (forall k fname ft ftag, fs !! k = Some (fname, ft, ftag) ->
        exists n d, resolve_typ m ftag = Some n /\ is_inline m n = false /\
          datum_of m fname ftag = Some d /\ substitutes_default m n) ->
     (forall k, k < length fs -> is_Some (heap_get w.(heap) (field_place p k))) ->
     let r := unmarshal m source data (TStruct fs) p w in
     r.1 = Ok /\
     (forall k fname ft ftag, fs !! k = Some (fname, ft, ftag) ->
        heap_get r.2.(heap) (field_place p k) = Some (zero ft))).
Proof.
  intros Hstrict. split; [|split].
  - intros fType fValue ctx w f Hget Hf. unfold dispatch. rewrite Hget.
    destruct (Lookup source (datum ctx)) as [rv rok]. cbn [fst snd] in Hf.
    rewrite Hf, Hstrict. reflexivity.
  - intros fType fValue ctx w g Hget Hg. unfold dispatch. rewrite Hget.
    destruct (LookupAll source (datum ctx)) as [rv rok]. cbn [fst snd] in Hg.
    rewrite Hg, Hstrict. reflexivity.
  - intros data fs p w Hsrc Hall Hdef r. subst r. cbn [unmarshal].
    destruct (pool_Get w) as [ctx w0] eqn:Hget.
    assert (Hw0 : w0.(heap) = w.(heap)).
    { unfold pool_Get in Hget. destruct (pool w); injection Hget as _ <-; reflexivity. }
    assert (Hdef0 : forall k, k < length fs ->
              is_Some (heap_get w0.(heap) (field_place p (0 + k)))).
    { intros k Hk. rewrite Hw0. apply Hdef. exact Hk. }
    pose proof (fields_loop_zero m source (unmarshal m source data) p fs Hstrict Hsrc Hall
                  0 (set_data ctx data) w0 Hdef0) as (Hok & Hzero & _).
    destruct (fields_loop _ _ _ _ _ _ _ _) as [[res ctx1] w1].
    cbn [fst snd] in Hok, Hzero |- *. unfold pool_Put, set_pool. cbn [heap].
    split; [exact Hok|]. intros k fn ft tg Hk. exact (Hzero k fn ft tg Hk).
Qed.

Lemma nil_return_zero_witness :
  (unmarshal (mk_example false) empty_source Data_zero Nils (0, [])
     (one_cell (VStruct [VInt 3]))).1 = Ok /\
  heap_get (unmarshal (mk_example false) empty_source Data_zero Nils (0, [])
              (one_cell (VStruct [VInt 3]))).2.(heap) (field_place (0, []) 0)
  = Some (zero TInt).
Proof.
  refine (let H := proj2 (proj2 (nil_return_zero (mk_example false) empty_source eq_refl))
                     Data_zero [("A", TInt, [("name", "a"); ("type", "nil")])] (0, [])
                     (one_cell (VStruct [VInt 3])) _ _ _ in
          conj (proj1 H) (proj2 H 0 "A" TInt [("name", "a"); ("type", "nil")] eq_refl)).
  - split; intros k; reflexivity.
  - intros k fn ft tg Hk. destruct k; cbn in Hk; [|discriminate].
    injection Hk as <- <- <-. exists "nil", "a".
    split; [reflexivity|split; [reflexivity|split; [reflexivity|]]].
    left. exists dnil. split; [vm_compute; reflexivity|]. intros c. reflexivity.
  - intros k Hk. destruct k; [|cbn in Hk; lia]. exists (VInt 3). reflexivity.
Defined.

(* ================================================================== *)
(** * Further properties of the package *)

(* ------------------------------------------------------------------ *)
(** ** Maps, sources and data *)

Lemma assoc_lookup_insert_eq {A} (l : list (string * A)) (k : string) (v : A) :
  assoc_lookup (assoc_insert k v l) k = Some v.
Proof.
  induction l as [|[k' v'] r IH]; simpl.
  - rewrite String.eqb_refl. reflexivity.
  - destruct (String.eqb_spec k' k); simpl.
    + rewrite String.eqb_refl. reflexivity.
    + destruct (String.eqb_spec k' k); [contradiction|exact IH].
Qed.

Lemma assoc_lookup_insert_ne {A} (l : list (string * A)) (k k' : string) (v : A) :
  k <> k' -> assoc_lookup (assoc_insert k v l) k' = assoc_lookup l k'.
Proof.
  intros Hne. induction l as [|[k0 v0] r IH]; simpl.
  - destruct (String.eqb_spec k k'); [contradiction|reflexivity].
  - destruct (String.eqb_spec k0 k) as [->|Hk0]; simpl.
    + destruct (String.eqb_spec k k'); [contradiction|reflexivity].
    + destruct (String.eqb_spec k0 k'); [reflexivity|exact IH].
Qed.



(** A [SourceSmartSplit] with at most one component gives consistent
    answers: [Lookup] finds [v] exactly when [LookupAll] finds a list
    starting with [v]. *)
Theorem smart_split_single_multi_agree (s : SourceSmartSplit) :
  s.(smart_single) = None \/ s.(smart_multi) = None ->
  forall k v,
    SourceSmartSplit_Lookup s k = (v, true) <->
    exists rest, SourceSmartSplit_LookupAll s k = (v :: rest, true).
Proof.
  destruct s as [[f|] [g|]]; simpl; intros Hone k v;
    [destruct Hone; discriminate| | |].
  - unfold SourceSmartSplit_Lookup, SourceSmartSplit_LookupAll; simpl.
    destruct (f k) as [r [|]]; simpl; split.
    + intros [= ->]. exists []. reflexivity.
    + intros [rest [= -> _]]. reflexivity.
    + discriminate.
    + intros [rest H]. discriminate.
  - unfold SourceSmartSplit_Lookup, SourceSmartSplit_LookupAll; simpl.
    destruct (g k) as [[|r0 rs] [|]]; simpl; split;
      try discriminate; try (intros [rest H]; discriminate).
    + intros [= ->]. exists rs. reflexivity.
    + intros [rest [= -> _]]. reflexivity.
  - unfold SourceSmartSplit_Lookup, SourceSmartSplit_LookupAll; simpl. split.
    + discriminate.
    + intros [rest H]. discriminate.
Qed.

Lemma smart_split_single_multi_agree_witness :
  let s := mkSourceSmartSplit None (Some (SourceMultiMap (<["k" := ["x"; "y"]]> ∅))) in
  (smart_single s = None \/ smart_multi s = None) /\
  (SourceSmartSplit_Lookup s "k" = ("x", true) <->
   exists rest, SourceSmartSplit_LookupAll s "k" = ("x" :: rest, true)).
Proof.
  intros s. split; [left; reflexivity|].
  apply smart_split_single_multi_agree. left. reflexivity.
Defined.

(** The predicates on [Kind]: a kind is never both single and multi, nor
    both an unmarshaler and a marshaler kind; it is single or multi
    exactly when it is an unmarshaler or a marshaler kind, that is, when
    it is not [KindUndef]. *)
Theorem Kind_predicates (k : Kind) :
  Kind_Single k && Kind_Multi k = false /\
  Kind_Unmarshaler k && Kind_Marshaler k = false /\
  Kind_Single k || Kind_Multi k = Kind_Unmarshaler k || Kind_Marshaler k /\
  Kind_Unmarshaler k || Kind_Marshaler k = negb (bool_decide (k = KindUndef)).
Proof. destruct k; split_and!; reflexivity. Qed.

(** [SetGlobal] then [GetGlobal]: the key reads back the value stored,
    the other keys and the local data of every field are unchanged. *)
Theorem SetGlobal_GetGlobal (c : context) (d : Data) (key : string) (value : ival) :
  context_GetGlobal (set_data c (Data_SetGlobal d key value)) key = value /\
  (forall key', key <> key' ->
     context_GetGlobal (set_data c (Data_SetGlobal d key value)) key' =
     context_GetGlobal (set_data c d) key') /\
  (forall key', context_Get (set_data c (Data_SetGlobal d key value)) key' =
                context_Get (set_data c d) key').
Proof.
  unfold context_GetGlobal, context_Get, Data_SetGlobal. simpl_ctx. cbn [Globals Locals].
  split_and!.
  - rewrite assoc_lookup_insert_eq. reflexivity.
  - intros key' Hne. rewrite assoc_lookup_insert_ne by exact Hne. reflexivity.
  - reflexivity.
Qed.

(** [SetLocal] then [Get]: a context whose field is [fld] reads back the
    value stored for [fld] and [key]; other keys of [fld], every key of
    the other fields and the global data are unchanged. *)
Theorem SetLocal_Get (c : context) (d : Data) (fld key : string) (value : ival) :
  (c.(field) = fld ->
     context_Get (set_data c (Data_SetLocal d fld key value)) key = value) /\
  (forall key', c.(field) = fld -> key <> key' ->
     context_Get (set_data c (Data_SetLocal d fld key value)) key' =
     context_Get (set_data c d) key') /\
  (forall key', c.(field) <> fld ->
     context_Get (set_data c (Data_SetLocal d fld key value)) key' =
     context_Get (set_data c d) key') /\
  (forall key', context_GetGlobal (set_data c (Data_SetLocal d fld key value)) key' =
                context_GetGlobal (set_data c d) key').
Proof.
  unfold context_GetGlobal, context_Get, Data_SetLocal. simpl_ctx. cbn [Globals Locals].
  split_and!.
  - intros ->. rewrite !assoc_lookup_insert_eq. reflexivity.
  - intros key' -> Hne. rewrite assoc_lookup_insert_eq, assoc_lookup_insert_ne by exact Hne.
    reflexivity.
  - intros key' Hne. rewrite assoc_lookup_insert_ne by congruence. reflexivity.
  - reflexivity.
Qed.

Lemma SetLocal_Get_witness :
  (set_field context_new "A").(field) = "A" /\
  context_Get (set_data (set_field context_new "A")
                 (Data_SetLocal (Data_SetLocal Data_zero "B" "k" (Some (TInt, VInt 1)))
                    "A" "k" (Some (TBool, VBool true)))) "k" = Some (TBool, VBool true).
Proof.
  split; [reflexivity|].
  apply (proj1 (SetLocal_Get (set_field context_new "A")
                  (Data_SetLocal Data_zero "B" "k" (Some (TInt, VInt 1))) "A" "k"
                  (Some (TBool, VBool true)))).
  reflexivity.
Defined.

Lemma SetGlobal_GetGlobal_witness :
  "x" <> "y" /\
  context_GetGlobal (set_data context_new (Data_SetGlobal Data_zero "x" (Some (TInt, VInt 1)))) "y"
  = context_GetGlobal (set_data context_new Data_zero) "y".
Proof.
  split; [discriminate|].
  apply (proj1 (proj2 (SetGlobal_GetGlobal context_new Data_zero "x" (Some (TInt, VInt 1))))).
  discriminate.
Defined.

(* ------------------------------------------------------------------ *)
(** ** Registration *)

Lemma registered_insert_eq {A} (mp : gmap string (option A)) (n : string) (u : option A) :
  registered (<[n := u]> mp) n = u.
Proof. unfold registered. rewrite lookup_insert_eq. destruct u; reflexivity. Qed.

Lemma registered_insert_ne {A} (mp : gmap string (option A)) (n n' : string) (u : option A) :
  n <> n' -> registered (<[n := u]> mp) n' = registered mp n'.
Proof. intros Hne. unfold registered. rewrite lookup_insert_ne by exact Hne. reflexivity. Qed.

(** [RegisterSingleUnmarshaler] then [getUnmarshaler]: a function
    registered under a name no multi unmarshaler uses is found as the
    single unmarshaler; if a multi unmarshaler is registered under the
    name, the name becomes ambiguous ([ErrBothTyp]); registering nil
    hides the single one; other names are unaffected. *)
Theorem RegisterSingleUnmarshaler_getUnmarshaler (m : Marshal) (n : string) :
  (forall f, registered m.(MultiUnmarshalers) n = None ->
     getUnmarshaler (RegisterSingleUnmarshaler m n (Some f)) n = (Some f, None, None)) /\
  (forall f, registered m.(MultiUnmarshalers) n <> None ->
     getUnmarshaler (RegisterSingleUnmarshaler m n (Some f)) n = (None, None, Some ErrBothTyp)) /\
  getUnmarshaler (RegisterSingleUnmarshaler m n None) n =
    match registered m.(MultiUnmarshalers) n with
    | Some g => (None, Some g, None)
    | None => (None, None, Some ErrUnknownTyp)
    end /\
  (forall u n', n <> n' ->
     getUnmarshaler (RegisterSingleUnmarshaler m n u) n' = getUnmarshaler m n').
Proof.
  split_and!.
  - intros f Hm. rewrite getUnmarshaler_registered. cbn [SingleUnmarshalers MultiUnmarshalers
      RegisterSingleUnmarshaler]. rewrite registered_insert_eq, Hm. reflexivity.
  - intros f Hm. rewrite getUnmarshaler_registered. cbn [SingleUnmarshalers MultiUnmarshalers
      RegisterSingleUnmarshaler]. rewrite registered_insert_eq.
    destruct (registered (MultiUnmarshalers m) n); [reflexivity|congruence].
  - rewrite getUnmarshaler_registered. cbn [SingleUnmarshalers MultiUnmarshalers
      RegisterSingleUnmarshaler]. rewrite registered_insert_eq. reflexivity.
  - intros u n' Hne. rewrite !getUnmarshaler_registered. cbn [SingleUnmarshalers
      MultiUnmarshalers RegisterSingleUnmarshaler].
    rewrite registered_insert_ne by exact Hne. reflexivity.
Qed.

Lemma RegisterSingleUnmarshaler_getUnmarshaler_witness :
  registered (mk_example false).(MultiUnmarshalers) "new" = None /\
  getUnmarshaler (RegisterSingleUnmarshaler (mk_example false) "new" (Some dconst)) "new"
  = (Some dconst, None, None).
Proof.
  split; [reflexivity|].
  apply (proj1 (RegisterSingleUnmarshaler_getUnmarshaler (mk_example false) "new")).
  reflexivity.
Defined.

(** [RegisterMultiUnmarshaler] then [getUnmarshaler], the same way. *)
Theorem RegisterMultiUnmarshaler_getUnmarshaler (m : Marshal) (n : string) :
  (forall g, registered m.(SingleUnmarshalers) n = None ->
     getUnmarshaler (RegisterMultiUnmarshaler m n (Some g)) n = (None, Some g, None)) /\
  (forall g, registered m.(SingleUnmarshalers) n <> None ->
     getUnmarshaler (RegisterMultiUnmarshaler m n (Some g)) n = (None, None, Some ErrBothTyp)) /\
  getUnmarshaler (RegisterMultiUnmarshaler m n None) n =
    match registered m.(SingleUnmarshalers) n with
    | Some f => (Some f, None, None)
    | None => (None, None, Some ErrUnknownTyp)
    end /\
  (forall u n', n <> n' ->
     getUnmarshaler (RegisterMultiUnmarshaler m n u) n' = getUnmarshaler m n').
Proof.
  split_and!.
  - intros g Hs. rewrite getUnmarshaler_registered. cbn [SingleUnmarshalers MultiUnmarshalers
      RegisterMultiUnmarshaler]. rewrite registered_insert_eq, Hs. reflexivity.
  - intros g Hs. rewrite getUnmarshaler_registered. cbn [SingleUnmarshalers MultiUnmarshalers
      RegisterMultiUnmarshaler]. rewrite registered_insert_eq.
    destruct (registered (SingleUnmarshalers m) n); [reflexivity|congruence].
  - rewrite getUnmarshaler_registered. cbn [SingleUnmarshalers MultiUnmarshalers
      RegisterMultiUnmarshaler]. rewrite registered_insert_eq.
    destruct (registered (SingleUnmarshalers m) n); reflexivity.
  - intros u n' Hne. rewrite !getUnmarshaler_registered. cbn [SingleUnmarshalers
      MultiUnmarshalers RegisterMultiUnmarshaler].
    rewrite registered_insert_ne by exact Hne. reflexivity.
Qed.

Lemma RegisterMultiUnmarshaler_getUnmarshaler_witness :
  registered (mk_example false).(SingleUnmarshalers) "new" = None /\
  getUnmarshaler (RegisterMultiUnmarshaler (mk_example false) "new" (Some dmulti_nil)) "new"
  = (None, Some dmulti_nil, None).
Proof.
  split; [reflexivity|].
  apply (proj1 (RegisterMultiUnmarshaler_getUnmarshaler (mk_example false) "new")).
  reflexivity.
Defined.

(* ------------------------------------------------------------------ *)
(** ** Invariants of a whole decode *)

Lemma gsize_field_lt (fs : list (string * gotype * StructTag)) fn t tg :
  In (fn, t, tg) fs -> gsize t < gsize (TStruct fs).
Proof.
  induction fs as [|[[fn' t'] tg'] r IH]; [intros []|].
  intros [H|H]; cbn [gsize map] in *; unfold list_sum in *; cbn [fold_right foldr] in *.
  - injection H as -> -> ->. lia.
  - specialize (IH H). lia.
Qed.

(** The registry lookup fails with [ErrBothTyp] or [ErrUnknownTyp] only,
    and never finds neither function without an error. *)
Lemma getUnmarshaler_cases (m : Marshal) (n : string) :
  (forall s g e, getUnmarshaler m n = (s, g, Some e) -> e = ErrBothTyp \/ e = ErrUnknownTyp) /\
  getUnmarshaler m n <> (None, None, None).
Proof.
  rewrite getUnmarshaler_registered.
  destruct (registered (SingleUnmarshalers m) n), (registered (MultiUnmarshalers m) n);
    split; try discriminate; intros ? ? ? [= _ _ <-]; auto.
Qed.

Lemma reconcile_WrongType_cause (st : bool) (pv : ival) (fType : gotype) a t c :
  reconcile st pv fType = WrongType a t c -> c = None.
Proof.
  unfold reconcile. destruct st; cbn [negb].
  - destruct pv as [[t0 v0]|]; [|discriminate].
    destruct (AssignableTo t0 fType); [discriminate|]. cbn. intros [= _ _ <-]. reflexivity.
  - destruct pv as [[t0 v0]|]; [|discriminate].
    destruct (ConvertibleTo t0 fType); cbn.
    + destruct (Convert t0 v0 fType); discriminate.
    + intros [= _ _ <-]. reflexivity.
Qed.

(** [dispatch] leaves the pool alone, and the errors it returns are an
    [ErrUnknownType] with a registry error, or carry the kind of the
    decoder called. *)
Lemma dispatch_pool (m : Marshal) (source : Source) fType fValue ctx w res ctx' w' :
  dispatch m source fType fValue ctx w = (res, ctx', w') -> w'.(pool) = w.(pool).
Proof.
  unfold dispatch.
  destruct (getUnmarshaler m (typ ctx)) as [[single multi] [err|]].
  { intros [= _ _ <-]. reflexivity. }
  destruct single as [f|]; [|destruct multi as [g|]].
  - destruct (Lookup source (datum ctx)) as [rv rok].
    destruct (f rv rok _) as [pv [e|]]; [intros [= _ _ <-]; reflexivity|].
    destruct (reconcile _ pv fType); intros [= _ _ <-]; reflexivity.
  - destruct (LookupAll source (datum ctx)) as [rv rok].
    destruct (g rv rok _) as [pv [e|]]; [intros [= _ _ <-]; reflexivity|].
    destruct (reconcile _ pv fType); intros [= _ _ <-]; reflexivity.
  - destruct (reconcile _ None fType); intros [= _ _ <-]; reflexivity.
Qed.

Lemma dispatch_errors (m : Marshal) (source : Source) fType fValue ctx w res ctx' w' e :
  dispatch m source fType fValue ctx w = (res, ctx', w') -> res = Err e ->
  (exists f tg d y c, e = ErrUnknownType f tg d y c /\ (c = ErrBothTyp \/ c = ErrUnknownTyp)) \/
  (exists f tg d y k c, e = ErrFailedToProcessField f tg d y k c /\ Kind_Unmarshaler k = true) \/
  (exists f tg d y k a rt dt, e = ErrWrongDestType f tg d y k a rt dt None /\
     Kind_Unmarshaler k = true).
Proof.
  destruct (getUnmarshaler_cases m (typ ctx)) as [Herr Hnone].
  unfold dispatch.
  destruct (getUnmarshaler m (typ ctx)) as [[single multi] [err|]] eqn:Hget.
  { intros [= <- _ _] [= <-]. left. do 5 eexists. split; [reflexivity|].
    exact (Herr _ _ _ eq_refl). }
  destruct single as [f|]; [|destruct multi as [g|]].
  - destruct (Lookup source (datum ctx)) as [rv rok].
    destruct (f rv rok _) as [pv [e0|]].
    + intros [= <- _ _] [= <-]. right; left. do 6 eexists. split; reflexivity.
    + destruct (reconcile _ pv fType) as [v|a t c|msg] eqn:Hr;
        intros [= <- _ _]; try discriminate. intros [= <-].
      rewrite (reconcile_WrongType_cause _ _ _ _ _ _ Hr).
      right; right. do 8 eexists. split; reflexivity.
  - destruct (LookupAll source (datum ctx)) as [rv rok].
    destruct (g rv rok _) as [pv [e0|]].
    + intros [= <- _ _] [= <-]. right; left. do 6 eexists. split; reflexivity.
    + destruct (reconcile _ pv fType) as [v|a t c|msg] eqn:Hr;
        intros [= <- _ _]; try discriminate. intros [= <-].
      rewrite (reconcile_WrongType_cause _ _ _ _ _ _ Hr).
      right; right. do 8 eexists. split; reflexivity.
  - contradiction.
Qed.

Lemma inline_target_pool (t : gotype) (fv : place) (w : world) q w1 :
  inline_target t fv w = Some (q, w1) -> w1.(pool) = w.(pool).
Proof.
  unfold inline_target. destruct (heap_get (heap w) fv) as [[| | | |[q0|]|]|]; try discriminate.
  - intros [= _ <-]. reflexivity.
  - cbn [reflect_New]. intros [= _ <-]. reflexivity.
Qed.

Section EngineInvariant.
Variables (m : Marshal) (source : Source) (data : Data).
(** A property of the world kept by every step, and a property of the
    outcomes the steps produce. *)
Variable Inv : world -> Prop.
Variable Res : outcome -> Prop.
Hypothesis HOk : Res Ok.
Hypothesis HPanic : forall msg, Res (Panic msg).
Hypothesis HInline : forall f tg y, Res (Err (ErrInlineNotStruct f tg y)).
Hypothesis HGet : forall w, Inv w -> Inv (pool_Get w).2.
Hypothesis HPut : forall c w, Inv w -> Inv (pool_Put (Reset c) w).
Hypothesis HTarget : forall t fv w q w1, Inv w -> inline_target t fv w = Some (q, w1) -> Inv w1.
Hypothesis HDispatch : forall fType fValue ctx w res ctx' w',
  Inv w -> dispatch m source fType fValue ctx w = (res, ctx', w') -> Res res /\ Inv w'.

Lemma fields_loop_invariant (recur : gotype -> place -> world -> outcome * world)
    (p : place) (fs : list (string * gotype * StructTag)) :
  (forall fs' q w,
     (exists fn tg, In (fn, TStruct fs', tg) fs \/ In (fn, TPtr (TStruct fs'), tg) fs) ->
     Inv w -> Res (recur (TStruct fs') q w).1 /\ Inv (recur (TStruct fs') q w).2) ->
  forall i ctx w, Inv w ->
  Res (fields_loop m source recur p fs i ctx w).1.1 /\
  Inv (fields_loop m source recur p fs i ctx w).2.
Proof.
  induction fs as [|[[fname fType] ftag] rest IH]; intros Hrec i ctx w Hw;
    [split; assumption|].
  assert (Hrec' : forall fs' q w,
     (exists fn tg, In (fn, TStruct fs', tg) rest \/ In (fn, TPtr (TStruct fs'), tg) rest) ->
     Inv w -> Res (recur (TStruct fs') q w).1 /\ Inv (recur (TStruct fs') q w).2).
  { intros fs' q w' (fn & tg & Hin). apply Hrec. exists fn, tg.
    destruct Hin; [left|right]; right; assumption. }
  destruct (resolve_typ m ftag) as [n|] eqn:Hres.
  2: { rewrite (fields_loop_cons_skip _ _ _ _ _ _ _ _ _ _ _ Hres). apply IH; assumption. }
  destruct (is_inline m n) eqn:Hinl.
  - destruct fType as [| | | |e|e|fs'];
      try (cbn [fields_loop]; rewrite Hres; cbn [typ set_typ]; rewrite Hinl;
           split; [apply HInline|exact Hw]).
    + destruct e as [| | | |e'|e'|fs''];
        try (cbn [fields_loop]; rewrite Hres; cbn [typ set_typ]; rewrite Hinl;
             split; [apply HInline|exact Hw]).
      rewrite (fields_loop_cons_inline_ptr _ _ _ _ _ _ _ _ _ _ _ _ Hres Hinl).
      destruct (inline_target (TStruct fs'') (field_place p i) w) as [[q w1]|] eqn:Ht;
        [|split; [apply HPanic|exact Hw]].
      destruct (Hrec fs'' q w1) as [Hr1 Hr2].
      { exists fname, ftag. right. left. reflexivity. }
      { exact (HTarget _ _ _ _ _ Hw Ht). }
      destruct (recur (TStruct fs'') q w1) as [[] w2]; cbn [fst snd] in Hr1, Hr2 |- *;
        try (split; assumption).
      apply IH; assumption.
    + rewrite (fields_loop_cons_inline_struct _ _ _ _ _ _ _ _ _ _ _ _ Hres Hinl).
      destruct (Hrec fs' (field_place p i) w) as [Hr1 Hr2];
        [exists fname, ftag; left; left; reflexivity|exact Hw|].
      destruct (recur (TStruct fs') (field_place p i) w) as [[] w2];
        cbn [fst snd] in Hr1, Hr2 |- *; try (split; assumption).
      apply IH; assumption.
  - rewrite (fields_loop_cons_leaf _ _ _ _ _ _ _ _ _ _ _ _ Hres Hinl).
    destruct (datum_of m fname ftag) as [d|] eqn:Hd.
    + rewrite (unmarshal_leaf_resolved _ _ _ _ _ _ _ _ _ Hd).
      destruct (dispatch _ _ _ _ _ _) as [[res ctx1] w1] eqn:Hdis.
      destruct (HDispatch _ _ _ _ _ _ _ Hw Hdis) as [Hr Hw1].
      destruct res; cbn [fst snd]; try (split; assumption).
      apply IH; assumption.
    + rewrite (unmarshal_leaf_skip _ _ _ _ _ _ _ _ Hd). apply IH; assumption.
Qed.

Lemma unmarshal_invariant (fs : list (string * gotype * StructTag)) (p : place) (w : world) :
  Inv w ->
  Res (unmarshal m source data (TStruct fs) p w).1 /\
  Inv (unmarshal m source data (TStruct fs) p w).2.
Proof.
  assert (Hgen : forall N fs p w, gsize (TStruct fs) < N -> Inv w ->
            Res (unmarshal m source data (TStruct fs) p w).1 /\
            Inv (unmarshal m source data (TStruct fs) p w).2).
  { induction N as [|N IHN]; intros fs0 p0 w0 Hsz Hw; [lia|].
    cbn [unmarshal].
    pose proof (HGet w0 Hw) as Hw1.
    destruct (pool_Get w0) as [ctx w1]. cbn [snd] in Hw1.
    destruct (fields_loop_invariant (unmarshal m source data) p0 fs0) with
      (i := 0) (ctx := set_data ctx data) (w := w1) as [Hr Hw2]; [|exact Hw1|].
    { intros fs' q w' (fn & tg & [Hin|Hin]) Hw'; apply IHN; try exact Hw'.
      - pose proof (gsize_field_lt _ _ _ _ Hin). lia.
      - pose proof (gsize_field_lt _ _ _ _ Hin). cbn [gsize] in *. lia. }
    destruct (fields_loop _ _ _ _ _ _ _ _) as [[res ctx2] w2].
    split; [exact Hr|]. apply HPut. exact Hw2. }
  intros Hw. apply (Hgen (S (gsize (TStruct fs)))); [lia|exact Hw].
Qed.

Hypothesis HDestIsNil : Res (Err ErrDestIsNil).
Hypothesis HNotPointer : Res (Err ErrNotPointerToStruct).

Lemma Unmarshal_invariant (value : ival) (w : world) :
  Inv w ->
  Res (Unmarshal m value source data w).1 /\ Inv (Unmarshal m value source data w).2.
Proof.
  intros Hw. unfold Unmarshal.
  destruct value as [[t v]|]; [|split; assumption].
  destruct t as [| | | |e|e|fs]; try (split; assumption).
  destruct e as [| | | |e'|e'|fs]; try (split; assumption).
  destruct v as [| | | |[q|]|]; try (split; assumption).
  - apply unmarshal_invariant. exact Hw.
  - pose proof (HGet w Hw) as Hw1. destruct (pool_Get w) as [ctx w1].
    split; [destruct fs; [apply HOk|apply HPanic]|]. apply HPut. exact Hw1.
Qed.
End EngineInvariant.

(** Every context a decode leaves in the pool is clean: [Reset] runs on
    each context before it goes back, on every path (errors and panics
    included). *)
Theorem Unmarshal_pool_clean (m : Marshal) (value : ival) (source : Source) (data : Data)
    (w : world) :
  Forall clean_context w.(pool) ->
  Forall clean_context (Unmarshal m value source data w).2.(pool).
Proof.
  intros Hw.
  apply (Unmarshal_invariant m source data
           (fun w => Forall clean_context w.(pool)) (fun _ => True)); auto.
  - intros w0 H0. unfold pool_Get.
    destruct (pool w0) as [|c rest] eqn:Hp; cbn [snd]; [rewrite Hp; exact H0|].
    unfold set_pool. cbn [pool]. inversion H0; assumption.
  - intros c w0 H0. unfold pool_Put, set_pool. cbn [pool]. constructor; [|exact H0].
    unfold clean_context, Reset. cbn. split_and!; reflexivity.
  - intros t fv w0 q w1 H0 Ht. rewrite (inline_target_pool _ _ _ _ _ Ht). exact H0.
  - intros fType fValue ctx w0 res ctx' w' H0 Hd. split; [exact I|].
    rewrite (dispatch_pool _ _ _ _ _ _ _ _ _ Hd). exact H0.
Qed.

Lemma Unmarshal_pool_clean_witness :
  Forall clean_context [Reset context_new] /\
  Forall clean_context
    (Unmarshal (mk_example false) (Some (TPtr Outer, VPtr (Some (0, []))))
       empty_source (mkData [("g", Some (TInt, VInt 1))] [])
       (mkWorld [VStruct [VPtr None; VInt 0; VStruct [VInt 7]]] [Reset context_new] [])).2.(pool).
Proof.
  assert (H : Forall clean_context [Reset context_new]).
  { constructor; [|constructor]. unfold clean_context, Reset. cbn. split_and!; reflexivity. }
  split; [exact H|].
  apply Unmarshal_pool_clean. exact H.
Defined.

(** An error from a decode is one of the engine's own: a nil or
    non-pointer destination, an inline field that is not a struct, an
    unknown decoder name wrapping [ErrBothTyp] or [ErrUnknownTyp], a
    decoder failure, or a wrong destination type without a cause; the
    last two carry the kind of a decoder ([Kind_Unmarshaler]).  A
    registry error or a decoder's own error is never returned bare. *)
Theorem Unmarshal_error_shape (m : Marshal) (value : ival) (source : Source) (data : Data)
    (w : world) (e : goerror) :
  (Unmarshal m value source data w).1 = Err e ->
  e = ErrDestIsNil \/ e = ErrNotPointerToStruct \/
  (exists f tg y, e = ErrInlineNotStruct f tg y) \/
  (exists f tg d y c, e = ErrUnknownType f tg d y c /\ (c = ErrBothTyp \/ c = ErrUnknownTyp)) \/
  (exists f tg d y k c, e = ErrFailedToProcessField f tg d y k c /\ Kind_Unmarshaler k = true) \/
  (exists f tg d y k a rt dt, e = ErrWrongDestType f tg d y k a rt dt None /\
     Kind_Unmarshaler k = true).
Proof.
  set (P := fun e : goerror =>
    e = ErrDestIsNil \/ e = ErrNotPointerToStruct \/
    (exists f tg y, e = ErrInlineNotStruct f tg y) \/
    (exists f tg d y c, e = ErrUnknownType f tg d y c /\ (c = ErrBothTyp \/ c = ErrUnknownTyp)) \/
    (exists f tg d y k c, e = ErrFailedToProcessField f tg d y k c /\ Kind_Unmarshaler k = true) \/
    (exists f tg d y k a rt dt, e = ErrWrongDestType f tg d y k a rt dt None /\
       Kind_Unmarshaler k = true)).
  intros He.
  destruct (Unmarshal_invariant m source data (fun _ => True)
              (fun o => match o with Err e => P e | _ => True end)) with (value := value) (w := w)
    as [Hr _]; auto.
  - intros f tg y. right; right; left. eauto.
  - intros fType fValue ctx w0 res ctx' w' _ Hd. split; [|exact I].
    destruct res as [|e0|msg]; try exact I.
    destruct (dispatch_errors _ _ _ _ _ _ _ _ _ e0 Hd eq_refl) as [H|[H|H]];
      unfold P; right; right; right; [left|right; left|right; right]; exact H.
  - left. reflexivity.
  - right; left. reflexivity.
  - rewrite He in Hr. exact Hr.
Qed.

Lemma Unmarshal_error_shape_witness :
  let e := ErrFailedToProcessField "X" [("name", "x"); ("type", "fail")] "x" "fail"
             KindSingleUnmarshaler (ErrorString "fail") in
  (Unmarshal (mk_example false)
     (Some (TPtr (TStruct [("X", TInt, [("name", "x"); ("type", "fail")])]), VPtr (Some (0, []))))
     empty_source Data_zero (one_cell (VStruct [VInt 0]))).1 = Err e /\
  (exists f tg d y k c, e = ErrFailedToProcessField f tg d y k c /\ Kind_Unmarshaler k = true).
Proof.
  intros e.
  assert (H : (Unmarshal (mk_example false)
     (Some (TPtr (TStruct [("X", TInt, [("name", "x"); ("type", "fail")])]), VPtr (Some (0, []))))
     empty_source Data_zero (one_cell (VStruct [VInt 0]))).1 = Err e) by (vm_compute; reflexivity).
  split; [exact H|].
  destruct (Unmarshal_error_shape _ _ _ _ _ _ H) as
    [Hx|[Hx|[(? & ? & ? & Hx)|[(? & ? & ? & ? & ? & Hx & _)|[Hx|(? & ? & ? & ? & ? & ? & ? & ? & Hx & _)]]]]];
    try discriminate Hx.
  exact Hx.
Defined.

(* ------------------------------------------------------------------ *)
(** ** Storing a decoded value *)

(** Once a decoder has returned a value without error, what [dispatch]
    does is [reconcile]'s verdict. *)
Lemma dispatch_decoded (m : Marshal) (source : Source) (fType : gotype) (fValue : place)
    (ctx : context) (w : world) pv k w1 :
  decoder_call m source ctx w pv k w1 ->
  dispatch m source fType fValue ctx w =
    match reconcile m.(StrictTyping) pv fType with
    | Assign v => (Ok, set_kind ctx k, set_place fValue v w1)
    | WrongType a t c =>
        (Err (ErrWrongDestType ctx.(field) ctx.(tag) ctx.(datum) ctx.(typ) k a t fType c),
         set_kind ctx k, w1)
    | RPanic msg => (Panic msg, set_kind ctx k, w1)
    end.
Proof.
  intros [(f & Hg & Hf & -> & ->)|(g & Hg & Hf & -> & ->)]; unfold dispatch; rewrite Hg.
  - destruct (Lookup source (datum ctx)) as [rv rok]. cbn [fst snd] in Hf. rewrite Hf.
    destruct (reconcile _ pv fType); reflexivity.
  - destruct (LookupAll source (datum ctx)) as [rv rok]. cbn [fst snd] in Hf. rewrite Hf.
    destruct (reconcile _ pv fType); reflexivity.
Qed.

(** Without strict typing, a value the decoder returns is converted to
    the field's type: a value of the field's type (tags aside) is stored
    as is, an [int] stored into an [int8] field wraps to 8 bits, an [int]
    stored into a [string] field becomes the UTF-8 encoding of that rune,
    and a value of a type that does not convert is refused with a
    conversion [ErrWrongDestType] and nothing written. *)
Theorem dispatch_nonstrict_convert (m : Marshal) (source : Source) (fType : gotype)
    (fValue : place) (ctx : context) (w : world) (t : gotype) (v : value) k w1 :
  m.(StrictTyping) = false ->
  decoder_call m source ctx w (Some (t, v)) k w1 ->
  (type_eqb true t fType = true ->
     dispatch m source fType fValue ctx w = (Ok, set_kind ctx k, set_place fValue v w1)) /\
  (forall z, t = TInt -> fType = TInt8 -> v = VInt z ->
     dispatch m source fType fValue ctx w =
       (Ok, set_kind ctx k, set_place fValue (VInt (wrap 8 z)) w1)) /\
  (forall z, t = TInt -> fType = TString -> v = VInt z ->
     dispatch m source fType fValue ctx w =
       (Ok, set_kind ctx k, set_place fValue (VString (utf8_of_rune z)) w1)) /\
  (ConvertibleTo t fType = false ->
     dispatch m source fType fValue ctx w =
       (Err (ErrWrongDestType ctx.(field) ctx.(tag) ctx.(datum) ctx.(typ) k false t fType None),
        set_kind ctx k, w1)).
Proof.
  intros Hst Hcall. rewrite (dispatch_decoded _ _ _ _ _ _ _ _ _ Hcall), Hst.
  unfold reconcile. cbn [negb].
  split_and!.
  - intros Heq. unfold ConvertibleTo, Convert. rewrite Heq. reflexivity.
  - intros z -> -> ->. reflexivity.
  - intros z -> -> ->. reflexivity.
  - intros Hc. rewrite Hc. reflexivity.
Qed.

Lemma dispatch_nonstrict_convert_witness :
  let m := mk_example false in
  let ctx := mkContext "A" [("name", "a"); ("type", "const")] "a" "const" KindUndef Data_zero in
  let w := one_cell (VStruct [VInt 0]) in
  m.(StrictTyping) = false /\
  decoder_call m empty_source ctx w (Some (TInt, VInt 42)) KindSingleUnmarshaler
    (log_event w (LookupCall "a")) /\
  dispatch m empty_source TInt8 (0, [0]) ctx w =
    (Ok, set_kind ctx KindSingleUnmarshaler,
     set_place (0, [0]) (VInt (wrap 8 42)) (log_event w (LookupCall "a"))).
Proof.
  intros m ctx w.
  assert (Hs : m.(StrictTyping) = false) by reflexivity.
  assert (Hc : decoder_call m empty_source ctx w (Some (TInt, VInt 42)) KindSingleUnmarshaler
                 (log_event w (LookupCall "a"))).
  { left. exists dconst. split_and!; [vm_compute; reflexivity|reflexivity..]. }
  split_and!; [exact Hs|exact Hc|].
  destruct (dispatch_nonstrict_convert m empty_source TInt8 (0, [0]) ctx w TInt (VInt 42)
              _ _ Hs Hc) as (_ & H8 & _).
  exact (H8 42%Z eq_refl eq_refl eq_refl).
Defined.

(** With strict typing, a decoded value is never converted: it is stored
    as is when its type is assignable to the field's type, and otherwise
    refused with an assignment [ErrWrongDestType] and nothing written. *)
Theorem dispatch_strict_assign (m : Marshal) (source : Source) (fType : gotype)
    (fValue : place) (ctx : context) (w : world) (t : gotype) (v : value) k w1 :
  m.(StrictTyping) = true ->
  decoder_call m source ctx w (Some (t, v)) k w1 ->
  (AssignableTo t fType = true ->
     dispatch m source fType fValue ctx w = (Ok, set_kind ctx k, set_place fValue v w1)) /\
  (AssignableTo t fType = false ->
     dispatch m source fType fValue ctx w =
       (Err (ErrWrongDestType ctx.(field) ctx.(tag) ctx.(datum) ctx.(typ) k true t fType None),
        set_kind ctx k, w1)).
Proof.
  intros Hst Hcall. rewrite (dispatch_decoded _ _ _ _ _ _ _ _ _ Hcall), Hst.
  unfold reconcile. cbn [negb].
  split; intros Ha; rewrite Ha; reflexivity.
Qed.

Lemma dispatch_strict_assign_witness :
  let m := mk_example true in
  let ctx := mkContext "A" [("name", "a"); ("type", "const")] "a" "const" KindUndef Data_zero in
  let w := one_cell (VStruct [VInt 0]) in
  m.(StrictTyping) = true /\
  decoder_call m empty_source ctx w (Some (TInt, VInt 42)) KindSingleUnmarshaler
    (log_event w (LookupCall "a")) /\
  dispatch m empty_source TInt8 (0, [0]) ctx w =
    (Err (ErrWrongDestType "A" [("name", "a"); ("type", "const")] "a" "const"
            KindSingleUnmarshaler true TInt TInt8 None),
     set_kind ctx KindSingleUnmarshaler, log_event w (LookupCall "a")).
Proof.
  intros m ctx w.
  assert (Hs : m.(StrictTyping) = true) by reflexivity.
  assert (Hc : decoder_call m empty_source ctx w (Some (TInt, VInt 42)) KindSingleUnmarshaler
                 (log_event w (LookupCall "a"))).
  { left. exists dconst. split_and!; [vm_compute; reflexivity|reflexivity..]. }
  split_and!; [exact Hs|exact Hc|].
  destruct (dispatch_strict_assign m empty_source TInt8 (0, [0]) ctx w TInt (VInt 42)
              _ _ Hs Hc) as (_ & Hno).
  exact (Hno eq_refl).
Defined.

(* ------------------------------------------------------------------ *)
(** ** Fields without a decoder name, and the order of source reads *)

Lemma fields_loop_untyped (m : Marshal) (source : Source)
    (recur : gotype -> place -> world -> outcome * world) (p : place) fs :
  (forall fname ft ftag, In (fname, ft, ftag) fs -> resolve_typ m ftag = None) ->
  forall i ctx w, exists ctx', fields_loop m source recur p fs i ctx w = (Ok, ctx', w).
Proof.
  induction fs as [|[[fname fType] ftag] rest IH]; intros Hnone i ctx w.
  - exists ctx. reflexivity.
  - rewrite (fields_loop_cons_skip _ _ _ _ _ _ _ _ _ _ _ (Hnone _ _ _ (or_introl eq_refl))).
    apply IH. intros fn ft tg Hin. exact (Hnone fn ft tg (or_intror Hin)).
Qed.

(** With no default decoder name, a struct none of whose fields carries
    the type tag is left as it is: the decode succeeds, nothing is read
    from the source and nothing is written (an inline field is not
    entered either). *)
Theorem unmarshal_untyped_noop (m : Marshal) (source : Source) (data : Data)
    (fs : list (string * gotype * StructTag)) (p : place) (w : world) :
  m.(DefaultType) = "" ->
  (forall fname ft ftag, In (fname, ft, ftag) fs -> StructTag_Get ftag m.(TypeTag) = "") ->
  (unmarshal m source data (TStruct fs) p w).1 = Ok /\
  (unmarshal m source data (TStruct fs) p w).2.(heap) = w.(heap) /\
  (unmarshal m source data (TStruct fs) p w).2.(trace) = w.(trace).
Proof.
  intros Hdef Htag.
  assert (Hnone : forall fname ft ftag, In (fname, ft, ftag) fs -> resolve_typ m ftag = None).
  { intros fn ft tg Hin. unfold resolve_typ. rewrite (Htag _ _ _ Hin), Hdef. reflexivity. }
  cbn [unmarshal].
  destruct (pool_Get w) as [ctx w0] eqn:Hget.
  assert (Hw0 : w0.(heap) = w.(heap) /\ w0.(trace) = w.(trace)).
  { unfold pool_Get in Hget. destruct (pool w); injection Hget as _ <-; split; reflexivity. }
  destruct (fields_loop_untyped m source (unmarshal m source data) p fs Hnone 0
              (set_data ctx data) w0) as [ctx' ->].
  unfold pool_Put, set_pool. cbn [fst snd heap trace]. destruct Hw0. split_and!; auto.
Qed.

Lemma unmarshal_untyped_noop_witness :
  let fs := [("A", TInt, [("name", "a")]); ("P", TPtr Leaf, [])] in
  let w := one_cell (VStruct [VInt 3; VPtr None]) in
  (mk_example false).(DefaultType) = "" /\
  (forall fname ft ftag, In (fname, ft, ftag) fs ->
     StructTag_Get ftag (mk_example false).(TypeTag) = "") /\
  (unmarshal (mk_example false) empty_source Data_zero (TStruct fs) (0, []) w).1 = Ok /\
  (unmarshal (mk_example false) empty_source Data_zero (TStruct fs) (0, []) w).2.(heap)
    = w.(heap) /\
  (unmarshal (mk_example false) empty_source Data_zero (TStruct fs) (0, []) w).2.(trace)
    = w.(trace).
Proof.
  intros fs w.
  assert (Hd : (mk_example false).(DefaultType) = "") by reflexivity.
  assert (Ht : forall fname ft ftag, In (fname, ft, ftag) fs ->
                 StructTag_Get ftag (mk_example false).(TypeTag) = "").
  { intros fn ft tg [H|[H|[]]]; injection H as <- <- <-; reflexivity. }
  split_and!; [exact Hd|exact Ht|..];
    apply (unmarshal_untyped_noop (mk_example false) empty_source Data_zero fs (0, []) w Hd Ht).
Defined.

Lemma dispatch_trace (m : Marshal) (source : Source) fType fValue ctx w res ctx' w' :
  dispatch m source fType fValue ctx w = (res, ctx', w') ->
  w'.(trace) = (w.(trace) ++
    match getUnmarshaler m ctx.(typ) with
    | (Some _, _, None) => [LookupCall ctx.(datum)]
    | (None, Some _, None) => [LookupAllCall ctx.(datum)]
    | _ => []
    end)%list.
Proof.
  unfold dispatch.
  destruct (getUnmarshaler m (typ ctx)) as [[single multi] [err|]].
  { intros [= _ _ <-]. destruct single, multi; rewrite app_nil_r; reflexivity. }
  destruct single as [f|]; [|destruct multi as [g|]].
  - destruct (Lookup source (datum ctx)) as [rv rok].
    destruct (f rv rok _) as [pv [e|]]; [intros [= _ _ <-]; reflexivity|].
    destruct (reconcile _ pv fType); intros [= _ _ <-]; reflexivity.
  - destruct (LookupAll source (datum ctx)) as [rv rok].
    destruct (g rv rok _) as [pv [e|]]; [intros [= _ _ <-]; reflexivity|].
    destruct (reconcile _ pv fType); intros [= _ _ <-]; reflexivity.
  - destruct (reconcile _ None fType); intros [= _ _ <-]; rewrite app_nil_r; reflexivity.
Qed.

Lemma fields_loop_trace (m : Marshal) (source : Source)
    (recur : gotype -> place -> world -> outcome * world) (p : place) fs :
  (forall fname ft ftag n, In (fname, ft, ftag) fs ->
     resolve_typ m ftag = Some n -> is_inline m n = false) ->
  forall i ctx w, (fields_loop m source recur p fs i ctx w).1.1 = Ok ->
  (fields_loop m source recur p fs i ctx w).2.(trace)
    = (w.(trace) ++ flat_map (field_events m) fs)%list.
Proof.
  induction fs as [|[[fname fType] ftag] rest IH]; intros Hflat i ctx w Hok.
  - cbn. rewrite app_nil_r. reflexivity.
  - assert (Hflat' : forall fname ft ftag n, In (fname, ft, ftag) rest ->
              resolve_typ m ftag = Some n -> is_inline m n = false).
    { intros fn ft tg n Hin. exact (Hflat fn ft tg n (or_intror Hin)). }
    cbn [flat_map]. rewrite app_assoc.
    destruct (resolve_typ m ftag) as [n|] eqn:Hres.
    + pose proof (Hflat fname fType ftag n (or_introl eq_refl) Hres) as Hi.
      rewrite (fields_loop_cons_leaf _ _ _ _ _ _ _ _ _ _ _ _ Hres Hi) in Hok |- *.
      destruct (datum_of m fname ftag) as [d|] eqn:Hd.
      * rewrite (unmarshal_leaf_resolved _ _ _ _ _ _ _ _ _ Hd) in Hok |- *.
        destruct (dispatch _ _ _ _ _ _) as [[res ctx1] w1] eqn:Hdis.
        destruct res; cbn [fst] in Hok; try discriminate Hok.
        rewrite (IH Hflat' (S i) ctx1 w1 Hok), (dispatch_trace _ _ _ _ _ _ _ _ _ Hdis).
        cbn [field_events]. rewrite Hres, Hd. reflexivity.
      * rewrite (unmarshal_leaf_skip _ _ _ _ _ _ _ _ Hd) in Hok |- *.
        rewrite (IH Hflat' (S i) _ w Hok).
        cbn [field_events]. rewrite Hres, Hd, app_nil_r. reflexivity.
    + rewrite (fields_loop_cons_skip _ _ _ _ _ _ _ _ _ _ _ Hres) in Hok |- *.
      rewrite (IH Hflat' (S i) _ w Hok).
      cbn [field_events]. rewrite Hres, app_nil_r. reflexivity.
Qed.

(** A successful decode of a struct with no inline field reads the source
    once per decoded field, in field order: [Lookup] for a field with a
    single decoder, [LookupAll] for one with a multi decoder, under the
    field's source key; a field without a decoder name or without a key
    reads nothing. *)
Theorem unmarshal_lookup_order (m : Marshal) (source : Source) (data : Data)
    (fs : list (string * gotype * StructTag)) (p : place) (w : world) :
  (forall fname ft ftag n, In (fname, ft, ftag) fs ->
     resolve_typ m ftag = Some n -> is_inline m n = false) ->
  (unmarshal m source data (TStruct fs) p w).1 = Ok ->
  (unmarshal m source data (TStruct fs) p w).2.(trace)
    = (w.(trace) ++ flat_map (field_events m) fs)%list.
Proof.
  intros Hflat. cbn [unmarshal].
  destruct (pool_Get w) as [ctx w0] eqn:Hget.
  assert (Hw0 : w0.(trace) = w.(trace)).
  { unfold pool_Get in Hget. destruct (pool w); injection Hget as _ <-; reflexivity. }
  pose proof (fields_loop_trace m source (unmarshal m source data) p fs Hflat 0
                (set_data ctx data) w0) as H.
  destruct (fields_loop _ _ _ _ _ _ _ _) as [[res ctx1] w1].
  cbn [fst snd] in H |- *. intros Hok. unfold pool_Put, set_pool. cbn [trace].
  rewrite (H Hok), Hw0. reflexivity.
Qed.

Lemma unmarshal_lookup_order_witness :
  let fs := [("A", TInt, [("name", "a"); ("type", "const")]); ("C", TInt, [("name", "c")]);
             ("D", TInt, [("name", "d"); ("type", "const")])] in
  let w := one_cell (VStruct [VInt 0; VInt 0; VInt 0]) in
  (forall fname ft ftag n, In (fname, ft, ftag) fs ->
     resolve_typ (mk_example false) ftag = Some n -> is_inline (mk_example false) n = false) /\
  (unmarshal (mk_example false) empty_source Data_zero (TStruct fs) (0, []) w).1 = Ok /\
  (unmarshal (mk_example false) empty_source Data_zero (TStruct fs) (0, []) w).2.(trace)
    = (w.(trace) ++ [LookupCall "a"; LookupCall "d"])%list.
Proof.
  intros fs w.
  assert (Hf : forall fname ft ftag n, In (fname, ft, ftag) fs ->
     resolve_typ (mk_example false) ftag = Some n -> is_inline (mk_example false) n = false).
  { intros fn ft tg n [H|[H|[H|[]]]]; injection H as <- <- <-; vm_compute;
      intros Hr; try discriminate Hr; injection Hr as <-; reflexivity. }
  assert (Hok : (unmarshal (mk_example false) empty_source Data_zero (TStruct fs) (0, []) w).1 = Ok)
    by (vm_compute; reflexivity).
  split_and!; [exact Hf|exact Hok|].
  rewrite (unmarshal_lookup_order _ _ _ _ _ _ Hf Hok). vm_compute. reflexivity.
Defined.
